(** * kitt-effect: the audio-energy-to-visual-level pipeline

    A shallow embedding of [src/kitt_effect.py] and [src/main.py].

    Numbers.  The program computes on binary64 values ([np.float64]).  The
    embedding uses exact arithmetic instead: rationals [Q] where the code
    only divides and rounds (the level quantizer, so that it can be run),
    and real numbers extended with the IEEE special values where the code
    takes a square root (the chunk energy analyzer).  The decimal literals
    of the threshold tables are taken at their exact decimal value.  The
    quantizer is written once for every numeric type that can form
    [round(e / threshold)]; it is also instantiated with machine binary64
    numbers, to run it as the program runs at given inputs.

    Collaborators.  The audio, image and video libraries are outside the
    program: what the program needs from them is a class of operations,
    with a sample instance for concrete runs.  Printing is left out. *)

From Stdlib Require Import String.
From Stdlib Require Floats.
From Stdlib Require Import ZArith QArith Qround Qabs Qreals Reals Lra Lia Lqa List Bool.
Import ListNotations.

(** ** Python exceptions and results *)

Inductive exn : Type :=
| FileNotFoundError
| ValueError
| ZeroDivisionError
| OverflowError
| IndexError
| AttributeError.

(** The result of a call that may raise. *)
Definition result (A : Type) : Type := (exn + A)%type.

Definition ok {A : Type} (a : A) : result A := inr a.
Definition raise {A : Type} (e : exn) : result A := inl e.

Definition rbind {A B : Type} (r : result A) (k : A -> result B) : result B :=
  match r with
  | inl e => inl e
  | inr a => k a
  end.

Declare Scope result_scope.
Delimit Scope result_scope with result.
Notation "x <- r ;; k" := (rbind r (fun x => k))
  (at level 61, r at next level, right associativity) : result_scope.

(** ** Python's [round] *)

(** [round(x)] with one argument rounds to the nearest integer and sends a
    tie to the even neighbour. *)
Definition round_half_even (x : Q) : Z :=
  let f := Qfloor x in
  match Qcompare (x - inject_Z f) (1 # 2) with
  | Lt => f
  | Gt => (f + 1)%Z
  | Eq => if Z.even f then f else (f + 1)%Z
  end.

(** ** The level quantizer: [get_number_of_rectangles] *)

(** The numeric type of an energy value, with the one operation the
    quantizer applies to it: [round(each_chunk / threshold)]. *)
Class Energy (num : Type) : Type :=
  round_div : num -> Q -> result Z.

(** Finite rational energies.  A zero divisor makes numpy produce [nan] or
    [inf], which [round] refuses. *)
#[export] Instance Energy_Q : Energy Q :=
  fun each_chunk threshold =>
    if Qeq_bool threshold 0
    then (if Qeq_bool each_chunk 0 then raise ValueError else raise OverflowError)
    else ok (round_half_even (each_chunk / threshold)).

Module Quantizer.

(** Lines 131-137: the threshold table of the frame rate. *)
Definition energy_thresholds (FPS : Z) : result (list Q) :=
  if (FPS =? 10)%Z then
    ok [1 # 10; 8 # 10; 16 # 10; 24 # 10; 32 # 10; 4 # 1; 5 # 1; 6 # 1;
        7 # 1; 8 # 1; 10 # 1]
  else if (FPS =? 15)%Z then
    ok [6 # 10; 1 # 1; 15 # 10; 2 # 1; 25 # 10; 3 # 1; 35 # 10; 4 # 1;
        5 # 1; 7 # 1; 10 # 1]
  else raise ValueError.

Section Loop.
Context {num : Type} `{Energy num}.

(** Lines 144-149: [while division != 1].  [fuel] bounds the number of
    times the body runs; [None] means the bound was reached. *)
Fixpoint while_loop (fuel : nat) (each_chunk : num) (thresholds : list Q)
         (counter : nat) (division : Z) : option (result nat) :=
  if (division =? 1)%Z then Some (ok counter)
  else
    match fuel with
    | O => None
    | S fuel' =>
        match nth_error thresholds counter with
        | None => Some (raise IndexError)
        | Some threshold =>
            match round_div each_chunk threshold with
            | inl e => Some (raise e)
            | inr ratio =>
                if (ratio =? 0)%Z
                then while_loop fuel' each_chunk thresholds counter 1
                else while_loop fuel' each_chunk thresholds (S counter) ratio
            end
        end
    end.

(** Lines 143-149 for one chunk: [counter, division = 0, 0] and the loop. *)
Definition counter_of (fuel : nat) (each_chunk : num) (thresholds : list Q)
  : option (result nat) :=
  while_loop fuel each_chunk thresholds 0 0.

(** Lines 152-155. *)
Definition level_of_counter (counter : nat) : Z :=
  if (counter =? 0)%nat then 0%Z else (Z.of_nat counter * 2 + 1)%Z.

(** The value stored in the [np.uint8] output array. *)
Definition to_uint8 (v : Z) : Z := (v mod 256)%Z.

(** The body runs at most once per table entry, and once more when it
    falls off the table. *)
Definition loop_fuel (thresholds : list Q) : nat := S (length thresholds).

Definition chunk_level (thresholds : list Q) (each_chunk : num)
  : option (result Z) :=
  match counter_of (loop_fuel thresholds) each_chunk thresholds with
  | None => None
  | Some r => Some (c <- r ;; ok (to_uint8 (level_of_counter c)))%result
  end.

(** The outer [for] over the chunks; [None] when some loop ran out of
    fuel before an exception or the end. *)
Fixpoint levels_of (thresholds : list Q) (energy_of_chunks : list num)
  : option (result (list Z)) :=
  match energy_of_chunks with
  | [] => Some (ok [])
  | e :: es =>
      match chunk_level thresholds e with
      | None => None
      | Some (inl x) => Some (raise x)
      | Some (inr l) =>
          match levels_of thresholds es with
          | None => None
          | Some (inl x) => Some (raise x)
          | Some (inr ls) => Some (ok (l :: ls))
          end
      end
  end.

Definition get_number_of_rectangles (energy_of_chunks : list num) (FPS : Z)
  : option (result (list Z)) :=
  match energy_thresholds FPS with
  | inl e => Some (raise e)
  | inr thresholds => levels_of thresholds energy_of_chunks
  end.

End Loop.

(** Predicates of the statements below: a table of positive thresholds,
    an energy between 0 and 10, a level that is 0 or odd. *)
Definition positive (thresholds : list Q) : Prop :=
  Forall (fun t => (0 < t)%Q) thresholds.

Definition in_range (e : Q) : Prop := (0 <= e)%Q /\ (e <= 10)%Q.

Definition zero_or_odd (l : Z) : Prop := l = 0%Z \/ Z.odd l = true.

End Quantizer.


(** The walk as the specification words it: stop only when the rounded
    ratio is 0, at the current index; otherwise advance; a table that is
    used up clamps the counter to its last index. *)
Module QuantizerSpec.

Fixpoint spec_walk (e : Q) (thresholds : list Q) (counter : nat) : nat :=
  match thresholds with
  | [] => pred counter
  | threshold :: rest =>
      if (round_half_even (e / threshold) =? 0)%Z then counter
      else spec_walk e rest (S counter)
  end.

Definition spec_counter (e : Q) (thresholds : list Q) : nat :=
  spec_walk e thresholds 0.

Definition spec_level (e : Q) (thresholds : list Q) : Z :=
  Quantizer.level_of_counter (spec_counter e thresholds).

End QuantizerSpec.

(** The walk as the code performs it, by recursion on the part of the table
    that is still ahead: a rounded ratio of 0 stops at the current index, a
    rounded ratio of 1 stops one index further, anything else advances, and
    a table that is used up raises [IndexError]. *)
Module QuantizerRule.

Fixpoint rule_walk {num : Type} `{Energy num} (e : num) (ahead : list Q)
         (counter : nat) : result nat :=
  match ahead with
  | [] => raise IndexError
  | threshold :: rest =>
      (ratio <- round_div e threshold ;;
       if (ratio =? 0)%Z then ok counter
       else if (ratio =? 1)%Z then ok (S counter)
       else rule_walk e rest (S counter))%result
  end.

Definition rule_level (counter : nat) : Z :=
  match counter with
  | O => 0%Z
  | S _ => (Z.of_nat counter * 2 + 1)%Z
  end.

End QuantizerRule.

(** ** binary64 values in exact arithmetic *)

(** A numpy scalar: a real number, or one of the IEEE special values.
    Signed zeros are not distinguished. *)
Inductive float64 : Type :=
| Num (r : R)
| PInf
| NInf
| NaN.

Module Numpy.
Local Open Scope R_scope.

(** [a / b] on numpy scalars: a zero divisor gives [nan] or an infinity
    (with a warning), never an exception. *)
Definition divide (a b : float64) : float64 :=
  match a, b with
  | NaN, _ | _, NaN => NaN
  | Num x, Num y =>
      if Req_dec_T y 0 then
        if Req_dec_T x 0 then NaN
        else if Rlt_dec 0 x then PInf else NInf
      else Num (x / y)
  | Num _, (PInf | NInf) => Num 0
  | PInf, Num y => if Rlt_dec y 0 then NInf else PInf
  | NInf, Num y => if Rlt_dec y 0 then PInf else NInf
  | (PInf | NInf), (PInf | NInf) => NaN
  end.

(** [np.sqrt]. *)
Definition sqrt (a : float64) : float64 :=
  match a with
  | Num x => if Rlt_dec x 0 then NaN else Num (R_sqrt.sqrt x)
  | PInf => PInf
  | NInf => NaN
  | NaN => NaN
  end.

(** [a * k] for a finite factor [k]. *)
Definition scale (a : float64) (k : R) : float64 :=
  match a with
  | Num x => Num (x * k)
  | PInf => if Rlt_dec k 0 then NInf else if Rlt_dec 0 k then PInf else NaN
  | NInf => if Rlt_dec k 0 then PInf else if Rlt_dec 0 k then NInf else NaN
  | NaN => NaN
  end.

(** The larger of two scalars; [nan] wins, as in [ndarray.max]. *)
Definition maximum (a b : float64) : float64 :=
  match a, b with
  | NaN, _ | _, NaN => NaN
  | PInf, _ | _, PInf => PInf
  | NInf, c | c, NInf => c
  | Num x, Num y => if Rle_dec x y then Num y else Num x
  end.

(** [ndarray.max()]: an empty array has no maximum. *)
Definition max (a : list float64) : result float64 :=
  match a with
  | [] => raise ValueError
  | x :: xs => ok (fold_left maximum xs x)
  end.

Definition sum (xs : list R) : R := fold_right Rplus 0 xs.

(** [np.mean]: the mean of an empty array is [nan] (with a warning). *)
Definition mean (xs : list R) : float64 :=
  match xs with
  | [] => NaN
  | _ => Num (sum xs / INR (length xs))
  end.

End Numpy.

(** [round] on a real number, and on a numpy scalar: Python refuses to
    round [nan] and the infinities. *)
Definition round_half_even_R (x : R) : Z :=
  let f := Int_part x in
  if Rlt_dec (x - IZR f) (1 / 2) then f
  else if Rlt_dec (1 / 2) (x - IZR f) then (f + 1)%Z
  else if Z.even f then f else (f + 1)%Z.

#[export] Instance Energy_float64 : Energy float64 :=
  fun each_chunk threshold =>
    match Numpy.divide each_chunk (Num (Q2R threshold)) with
    | Num x => ok (round_half_even_R x)
    | NaN => raise ValueError
    | PInf | NInf => raise OverflowError
    end.

(** ** binary64 arithmetic itself *)

(** The quantizer can also be run on machine numbers, to compare the exact
    model with the program at given inputs. *)
Module Binary64.

(** The binary64 value of a decimal literal: the quotient of two small
    integers, rounded once. *)
Definition of_decimal (q : Q) : PrimFloat.float :=
  PrimFloat.div (PrimFloat.of_uint63 (Uint63.of_Z (Qnum q)))
                (PrimFloat.of_uint63 (Uint63.of_Z (Z.pos (Qden q)))).

(** The rational number a finite binary64 value stands for. *)
Definition to_Q (x : PrimFloat.float) : option Q :=
  match FloatOps.Prim2SF x with
  | SpecFloat.S754_zero _ => Some 0
  | SpecFloat.S754_finite s m e =>
      let v := match e with
               | Z.neg p => Z.pos m # (2 ^ p)
               | _ => inject_Z (Z.pos m * 2 ^ e)
               end in
      Some (if s then - v else v)
  | SpecFloat.S754_infinity _ => None
  | SpecFloat.S754_nan => None
  end.

End Binary64.

#[export] Instance Energy_binary64 : Energy PrimFloat.float :=
  fun each_chunk threshold =>
    let ratio := PrimFloat.div each_chunk (Binary64.of_decimal threshold) in
    match FloatOps.Prim2SF ratio with
    | SpecFloat.S754_nan => raise ValueError
    | SpecFloat.S754_infinity _ => raise OverflowError
    | _ =>
        match Binary64.to_Q ratio with
        | Some q => ok (round_half_even q)
        | None => raise ValueError
        end
    end.

(** ** The audio subsystem (pydub) *)

(** A decoded recording.  Sample values are kept exact: the integer
    truncation, clipping and wrap-around of the audio library are left
    out. *)
Record AudioSegment : Type := mkAudioSegment {
  channels : Z;
  max_possible_amplitude : Q;
  samples : list Q
}.

Module Pydub.
Local Open Scope Q_scope.

Definition with_samples (seg : AudioSegment) (xs : list Q) : AudioSegment :=
  mkAudioSegment (channels seg) (max_possible_amplitude seg) xs.

Definition Qsum (xs : list Q) : Q := fold_right Qplus 0 xs.

(** The peak of a recording: its largest absolute sample value. *)
Definition peak (xs : list Q) : Q :=
  fold_right (fun x m => if Qle_bool m (Qabs x) then Qabs x else m) 0 xs.

(** [AudioSegment.normalize()]: a silent recording is returned as it is;
    otherwise the gain that brings the peak to the full range is applied
    (the 0.1 dB headroom is left out). *)
Definition normalize (seg : AudioSegment) : AudioSegment :=
  let p := peak (samples seg) in
  if Qeq_bool p 0 then seg
  else with_samples seg
         (map (fun x => x * (max_possible_amplitude seg / p)) (samples seg)).

(** The mean of the samples, 0 for an empty recording. *)
Definition avg (xs : list Q) : Q :=
  match xs with
  | [] => 0
  | _ => Qsum xs / inject_Z (Z.of_nat (length xs))
  end.

(** [AudioSegment.remove_dc_offset()]: subtract the mean of the samples
    from every sample. *)
Definition remove_dc_offset (seg : AudioSegment) : AudioSegment :=
  let off := avg (samples seg) in
  with_samples seg (map (fun x => x - off) (samples seg)).

(** Two recordings with the same samples, as rational numbers. *)
Definition same_samples (a b : AudioSegment) : Prop :=
  Forall2 Qeq (samples a) (samples b).

End Pydub.

(** What the program takes from its collaborators. *)
Class Collaborators : Type := {
  (** [AudioSegment.from_file]: [None] when the file is missing. *)
  from_file : String.string -> option AudioSegment;
  (** [AudioSegment.set_channels]. *)
  set_channels : AudioSegment -> Z -> AudioSegment;
  (** [make_chunks(record, chunk_length)]: the windows of the recording,
      each with its array of samples. *)
  make_chunks : AudioSegment -> Q -> list (list Q);
  (** [cv2.imread]: width and height of the image, [None] when it cannot
      be read. *)
  imread : String.string -> option (Z * Z)
}.

(** ** The audio preprocessor: [load_and_process_audio] *)

Module Preprocessor.
Section WithCollaborators.
Context `{Collaborators}.

Definition load_and_process_audio (audio_file_name : String.string)
  : result AudioSegment :=
  match from_file audio_file_name with
  | None => raise FileNotFoundError
  | Some record =>
      let record :=
        if (channels record =? 1)%Z then record else set_channels record 1 in
      (* line 53 *)
      ok (Pydub.remove_dc_offset (Pydub.normalize record))
  end.
End WithCollaborators.

(** The order the specification asks for: DC removal, then
    normalization. *)
Definition dc_removal_then_normalization (record : AudioSegment)
  : AudioSegment :=
  Pydub.normalize (Pydub.remove_dc_offset record).

End Preprocessor.

(** ** The chunk energy analyzer: [calculate_energy_level_of_chunks] *)

Module Analyzer.
Local Open Scope R_scope.

(** Lines 104-105: [np.mean(tmp**2)] of one chunk. *)
Definition mean_energy (chunk : list Q) : float64 :=
  let tmp := map Q2R chunk in
  Numpy.mean (map (fun x => x * x) tmp).

(** Line 109: [np.sqrt(energy_of_chunks/energy_of_chunks.max())*10]. *)
Definition equalize (energy_of_chunks : list float64)
  : result (list float64) :=
  (m <- Numpy.max energy_of_chunks ;;
   ok (map (fun x => Numpy.scale (Numpy.sqrt (Numpy.divide x m)) 10)
           energy_of_chunks))%result.

Section WithCollaborators.
Context `{Collaborators}.

Definition calculate_energy_level_of_chunks (record : AudioSegment)
           (FPS : Z) : result (list float64) :=
  if (FPS =? 0)%Z then raise ZeroDivisionError
  else
    let chunks := make_chunks record (1000 / inject_Z FPS)%Q in
    let energy_of_chunks := map mean_energy chunks in
    equalize energy_of_chunks.
End WithCollaborators.

(** The raw mean energy of a window that holds samples, as a real
    number. *)
Definition raw_energy (chunk : list Q) : R :=
  Numpy.sum (map (fun x => x * x) (map Q2R chunk))
  / INR (List.length (map (fun x => x * x) (map Q2R chunk))).

(** A recording is not all-silent over its windows when some window has a
    sample that is not 0. *)
Definition not_all_silent (chunks : list (list Q)) : Prop :=
  Exists (fun chunk => Exists (fun x => ~ (x == 0)%Q) chunk) chunks.

(** Every window holds at least one sample. *)
Definition windows_nonempty (chunks : list (list Q)) : Prop :=
  Forall (fun chunk => chunk <> []) chunks.

End Analyzer.

(** ** The frame renderer: [rect_coords], [draw_column], [draw_rectangles] *)

(** One call of [cv2.rectangle]: the two corners and the colour. *)
Record rectangle : Type := mkRectangle {
  pt1 : Z * Z;
  pt2 : Z * Z;
  color : Z * Z * Z
}.

(** A frame buffer: its size and the rectangles drawn on it, in order. *)
Record image : Type := mkImage {
  img_w : Z;
  img_h : Z;
  drawn : list rectangle
}.

Module Renderer.
Local Open Scope Q_scope.

Definition Qlt_bool (x y : Q) : bool := negb (Qle_bool y x).

(** Python's [int] on a float: truncation toward zero. *)
Definition int (x : Q) : Z := if Qle_bool 0 x then Qfloor x else Qceiling x.

(** Python's [%] on floats, for a positive divisor. *)
Definition fmod (x y : Q) : Q := x - y * inject_Z (Qfloor (x / y)).

(** Python's [range(a, b)]. *)
Definition range (a b : Z) : list Z :=
  map (fun k => (a + Z.of_nat k)%Z) (seq 0 (Z.to_nat (b - a))).

Definition rect_coords (center : Z * Z) (width height : Z)
  : (Z * Z) * (Z * Z) :=
  let pt1 := (int (inject_Z (fst center) - inject_Z width / 2),
              int (inject_Z (snd center) - inject_Z height / 2)) in
  let pt2 := (int (inject_Z (fst center) + inject_Z width / 2),
              int (inject_Z (snd center) + inject_Z height / 2)) in
  (pt1, pt2).

(** [cv2.rectangle(img, pt1, pt2, color, -1, 8)]. *)
Definition cv2_rectangle (img : image) (pts : (Z * Z) * (Z * Z))
           (color : Z * Z * Z) : image :=
  mkImage (img_w img) (img_h img)
          (drawn img ++ [mkRectangle (fst pts) (snd pts) color]).

Definition vspace : Z := 5.
Definition red : Z := 150.

(** The body of the loop of [draw_column], lines 183-201, for index [i]. *)
Definition draw_column_body (center : Z * Z) (count width height : Z)
           (img : image) (i : Z) : image :=
  let half := inject_Z count / 2 in
  let img :=
    if (i =? 0)%Z
    then cv2_rectangle img (rect_coords center width height) (0, 0, red)%Z
    else img in
  let img :=
    if (0 <? i)%Z && Qlt_bool (inject_Z i) half
    then
      let tmp_center :=
        (fst center, snd center + i * (height + vspace))%Z in
      cv2_rectangle img (rect_coords tmp_center width height)
                    (0, 0, red + 10 * i)%Z
    else img in
  let img :=
    if Qlt_bool half (inject_Z i)
    then
      let tmp_center :=
        (fst center,
         snd center - (i - Qfloor half) * (height + vspace))%Z in
      cv2_rectangle img (rect_coords tmp_center width height)
                    (0, 0, red + 10 * Qceiling (fmod (inject_Z i) half))%Z
    else img in
  img.

(** [for i in range(0, count)]. *)
Definition draw_column (img : image) (center : Z * Z)
           (count width height : Z) : image :=
  fold_left (draw_column_body center count width height) (range 0 count) img.

Definition hspace : Z := 40.
Definition index : list Z := [-2; -1; 0; 1; 2]%Z.

Definition is_in (i : Z) (xs : list Z) : bool := existsb (Z.eqb i) xs.

(** The body of the loop of [draw_rectangles], lines 227-232.  [count - 2]
    and [count - 4] are integers and may be negative (a NumPy 1.x [uint8]
    scalar minus a Python [int] is an [int64]). *)
Definition draw_rectangles_body (center : Z * Z) (count width height : Z)
           (img : image) (i : Z) : image :=
  let column := (fst center + i * hspace, snd center)%Z in
  let img :=
    if (i =? 0)%Z then draw_column img column count width height
    else img in
  let img :=
    if is_in i [-1; 1]%Z then draw_column img column (count - 2) width height
    else img in
  let img :=
    if is_in i [-2; 2]%Z then draw_column img column (count - 4) width height
    else img in
  img.

Definition draw_rectangles (img : image) (center_coordinate_of_column : Z * Z)
           (count width height : Z) : image :=
  let center := center_coordinate_of_column in
  fold_left (draw_rectangles_body center count width height) index img.

(** The rectangles that [draw_rectangles] hands to the column at
    position [i] of [index]. *)
Definition column_count (count i : Z) : Z :=
  if (i =? 0)%Z then count
  else if is_in i [-1; 1]%Z then (count - 2)%Z
  else (count - 4)%Z.

(** The rectangles of the column at position [i], drawn on their own. *)
Definition column (center : Z * Z) (count width height i : Z)
  : list rectangle :=
  drawn (draw_column (mkImage 0 0 [])
                     (fst center + i * hspace, snd center)%Z
                     (column_count count i) width height).

(** The rectangles one run of the body of [draw_column] adds. *)
Definition body_rectangles (center : Z * Z) (count width height i : Z)
  : list rectangle :=
  drawn (draw_column_body center count width height (mkImage 0 0 []) i).

(** The levels the quantizer can store: 0 or a positive odd number. *)
Definition activity_level (n : Z) : Prop :=
  n = 0%Z \/ (0 < n)%Z /\ Z.odd n = true.

End Renderer.

(** ** The frame sequencer and the program: [process_video], [main.py] *)

(** What the run does to the outside, in order. *)
Inductive event : Type :=
| AudioDecoding (path : String.string)
| EnergyAnalysis
| Quantization
| ImageReading (path : String.string)
| FrameWritten (frame : image)
| VideoReleased
| Muxing.

(** A computation that appends to the log of events and may raise; [None]
    when a loop of the model ran out of fuel. *)
Definition Py (A : Type) : Type :=
  list event -> option (list event * result A).

Module Py.
Definition ret {A : Type} (a : A) : Py A := fun log => Some (log, ok a).
Definition throw {A : Type} (e : exn) : Py A := fun log => Some (log, raise e).
Definition emit (ev : event) : Py unit := fun log => Some (log ++ [ev], ok tt).
Definition bind {A B : Type} (c : Py A) (k : A -> Py B) : Py B :=
  fun log =>
    match c log with
    | None => None
    | Some (log', inl e) => Some (log', inl e)
    | Some (log', inr a) => k a log'
    end.
Definition lift {A : Type} (r : result A) : Py A := fun log => Some (log, r).
Definition lift_partial {A : Type} (r : option (result A)) : Py A :=
  fun log => match r with None => None | Some x => Some (log, x) end.
End Py.

Declare Scope py_scope.
Delimit Scope py_scope with py.
Notation "x <- c ;; k" := (Py.bind c (fun x => k))
  (at level 61, c at next level, right associativity) : py_scope.
Notation "c ;;; k" := (Py.bind c (fun _ => k))
  (at level 61, right associativity) : py_scope.

Module Main.
Section WithCollaborators.
Context `{Collaborators}.
Local Open Scope py_scope.

Fixpoint write_frames (img : image) (center_position : Z * Z)
         (rect_w rect_h : Z) (number_of_rectangles : list Z) : Py unit :=
  match number_of_rectangles with
  | [] => Py.ret tt
  | each_chunk :: rest =>
      let tmp := img in
      let tmp :=
        Renderer.draw_rectangles tmp center_position each_chunk rect_w rect_h in
      Py.emit (FrameWritten tmp) ;;;
      write_frames img center_position rect_w rect_h rest
  end.

(** [cv2.imread] returns [None] for a file it cannot read, so the next
    line, which reads [img.shape], raises. *)
Definition process_video (number_of_rectangles : list Z)
           (background_image video_file_name : String.string) (FPS : Z)
  : Py unit :=
  Py.emit (ImageReading background_image) ;;;
  match imread background_image with
  | None => Py.throw AttributeError
  | Some (w, h) =>
      let img := mkImage w h [] in
      let rect_w := 20%Z in
      let rect_h := 6%Z in
      let additional_vspace := 150%Z in
      let center_position :=
        (round_half_even (inject_Z w / 2),
         (round_half_even (inject_Z h / 2) + additional_vspace)%Z) in
      write_frames img center_position rect_w rect_h number_of_rectangles ;;;
      Py.emit VideoReleased
  end.

Definition produce_final_output
           (audio_file_name video_file_name final_video_file : String.string)
  : Py unit :=
  Py.emit Muxing.

Definition AUDIO_FILE_NAME : String.string := "./sample_input/sample_input.mp3"%string.
Definition BACKGROUND_IMAGE : String.string := "./sample_input/bg.png"%string.
Definition VIDEO_FILE_NAME : String.string := "./sample_output/output.mp4"%string.
Definition FINAL_VIDEO_FILE : String.string := "./sample_output/final.mp4"%string.

(** Lines 36-45 of [main.py], for a frame rate [FPS]. *)
Definition main (FPS : Z) : Py unit :=
  Py.emit (AudioDecoding AUDIO_FILE_NAME) ;;;
  RECORD <- Py.lift (Preprocessor.load_and_process_audio AUDIO_FILE_NAME) ;;
  Py.emit EnergyAnalysis ;;;
  ENERGY_OF_CHUNKS <-
    Py.lift (Analyzer.calculate_energy_level_of_chunks RECORD FPS) ;;
  Py.emit Quantization ;;;
  NUMBER_OF_RECTANGLES <-
    Py.lift_partial
      (Quantizer.get_number_of_rectangles ENERGY_OF_CHUNKS FPS) ;;
  process_video NUMBER_OF_RECTANGLES BACKGROUND_IMAGE VIDEO_FILE_NAME FPS ;;;
  produce_final_output AUDIO_FILE_NAME VIDEO_FILE_NAME FINAL_VIDEO_FILE.

Definition run (FPS : Z) : option (list event * result unit) := main FPS [].
End WithCollaborators.

(** The events of the stages that come before the renderer. *)
Definition before_rendering (ev : event) : Prop :=
  ev = AudioDecoding AUDIO_FILE_NAME \/ ev = EnergyAnalysis
  \/ ev = Quantization.

End Main.

(** ** Sample collaborators, to run the program on concrete inputs *)

Module Sample.

(** Consecutive windows of [n] samples; the last one may be shorter. *)
Fixpoint windows (fuel n : nat) (xs : list Q) : list (list Q) :=
  match fuel, xs with
  | O, _ | _, [] => []
  | S fuel', _ => firstn n xs :: windows fuel' n (skipn n xs)
  end.

(** A world with one recording, sampled at [samples_per_ms] samples per
    millisecond, and one background image. *)
Definition collaborators (audio : option AudioSegment) (samples_per_ms : Q)
           (background : option (Z * Z)) : Collaborators :=
  {| from_file := fun _ => audio;
     set_channels := fun seg c =>
       mkAudioSegment c (max_possible_amplitude seg) (samples seg);
     make_chunks := fun seg chunk_length =>
       let n := Z.to_nat (Qceiling (chunk_length * samples_per_ms)) in
       if (n =? 0)%nat then []
       else windows (List.length (samples seg)) n (samples seg);
     imread := fun _ => background |}.

(** A 16-bit mono recording of four samples at 20 samples per second: a
    window of 100 ms holds two samples. *)
Definition sample_recording : AudioSegment :=
  mkAudioSegment 1 32768 [1; 0; 2; 2]%Q.

Definition sample_world : Collaborators :=
  collaborators (Some sample_recording) (1 # 50) (Some (1920, 1080)%Z).

(** The same with four samples of silence. *)
Definition silent_recording : AudioSegment :=
  mkAudioSegment 1 32768 [0; 0; 0; 0]%Q.

Definition silent_world : Collaborators :=
  collaborators (Some silent_recording) (1 # 50) (Some (1920, 1080)%Z).

(** The same with a DC offset: the samples 0 and 2. *)
Definition biased_recording : AudioSegment :=
  mkAudioSegment 1 32768 [0; 2]%Q.

Definition biased_world : Collaborators :=
  collaborators (Some biased_recording) (1 # 50) (Some (1920, 1080)%Z).

(** Windows cut by milliseconds, the way pydub's [make_chunks] cuts them:
    the length of the recording is rounded to whole milliseconds, there are
    [ceil(length / chunk_length)] windows, and the window [i] holds the
    samples from position [int(start * rate)] to [int(stop * rate)], for
    [start = i * chunk_length] and [stop = (i + 1) * chunk_length], both
    capped at the length.  With less than one sample per window some
    windows hold no sample. *)
Definition Qmin (x y : Q) : Q := if Qle_bool x y then x else y.

Definition slice (xs : list Q) (a b : Z) : list Q :=
  firstn (Z.to_nat (b - a)) (skipn (Z.to_nat a) xs).

Definition ms_chunks (samples_per_ms : Q) (xs : list Q) (chunk_length : Q)
  : list (list Q) :=
  let len_ms :=
    inject_Z (round_half_even
                (inject_Z (Z.of_nat (List.length xs)) / samples_per_ms)) in
  let number_of_chunks := Qceiling (len_ms / chunk_length) in
  map (fun i =>
         let start := Qmin (inject_Z i * chunk_length) len_ms in
         let stop := Qmin ((inject_Z i + 1) * chunk_length) len_ms in
         slice xs (Renderer.int (start * samples_per_ms))
                  (Renderer.int (stop * samples_per_ms)))
      (Renderer.range 0 number_of_chunks).

(** A 16-bit mono recording of one sample at 8 samples per second, 125 ms
    long: at 10 frames per second its first window of 100 ms holds no
    sample and its second window holds the sample. *)
Definition sparse_recording : AudioSegment :=
  mkAudioSegment 1 32768 [5]%Q.

Definition sparse_world : Collaborators :=
  {| from_file := fun _ => Some sparse_recording;
     set_channels := fun seg c =>
       mkAudioSegment c (max_possible_amplitude seg) (samples seg);
     make_chunks := fun seg chunk_length =>
       ms_chunks (1 # 125) (samples seg) chunk_length;
     imread := fun _ => Some (1920, 1080)%Z |}.

(** A world whose chunker returns the whole recording followed by a window
    without samples. *)
Definition ragged_world : Collaborators :=
  {| from_file := fun _ => Some sample_recording;
     set_channels := fun seg c =>
       mkAudioSegment c (max_possible_amplitude seg) (samples seg);
     make_chunks := fun seg _ => [samples seg; []];
     imread := fun _ => Some (1920, 1080)%Z |}.

End Sample.

(** ** Closed form of a column *)

(** A column as a list of rectangles: the one on the anchor, then [m]
    rectangles stacked below it and [m] stacked above it, [height + vspace]
    apart, the [j]-th on either side in the colour [red + 10 * j]. *)
Module Layout.

Definition rect_at (center : Z * Z) (width height c : Z) : rectangle :=
  mkRectangle (fst (Renderer.rect_coords center width height))
              (snd (Renderer.rect_coords center width height))
              (0, 0, c)%Z.

Definition below (center : Z * Z) (width height j : Z) : rectangle :=
  rect_at (fst center, snd center + j * (height + Renderer.vspace))%Z
          width height (Renderer.red + 10 * j)%Z.

Definition above (center : Z * Z) (width height j : Z) : rectangle :=
  rect_at (fst center, snd center - j * (height + Renderer.vspace))%Z
          width height (Renderer.red + 10 * j)%Z.

Definition symmetric_column (center : Z * Z) (m width height : Z)
  : list rectangle :=
  rect_at center width height Renderer.red
  :: map (below center width height) (Renderer.range 1 (m + 1))
  ++ map (above center width height) (Renderer.range 1 (m + 1)).

End Layout.

(** ** Predicates and abbreviations of the further properties *)

(** A level that is 0 or an odd number from 3 to 23. *)
Definition odd_from_3 (l : Z) : Prop :=
  l = 0%Z \/ (Z.odd l = true /\ (3 <= l <= 23)%Z).

(** The top level of a frame rate: the level of the energy 10. *)
Definition top_level (FPS : Z) : Z := if (FPS =? 10)%Z then 19%Z else 21%Z.

(** A rectangle in a shade of red that fits 8 bits. *)
Definition red_shade (r : rectangle) : Prop :=
  exists c, color r = (0, 0, c)%Z /\ (150 <= c <= 250)%Z.

(** A rectangle within an image of [w] by [h] pixels. *)
Definition inside (w h : Z) (r : rectangle) : Prop :=
  (0 <= fst (pt1 r) <= fst (pt2 r))%Z /\ (fst (pt2 r) < w)%Z
  /\ (0 <= snd (pt1 r) <= snd (pt2 r))%Z /\ (snd (pt2 r) < h)%Z.



(** * Properties *)

(** ** Rounding *)

Section Rounding.
Local Open Scope Q_scope.

Lemma Qfloor_unique (x : Q) (n : Z) :
  inject_Z n <= x -> x < inject_Z (n + 1) -> Qfloor x = n.
Proof.
  intros Hlo Hhi.
  pose proof (Qfloor_le x) as Hf.
  pose proof (Qlt_floor x) as Hc.
  assert (H1 : (n < Qfloor x + 1)%Z).
  { rewrite Zlt_Qlt. eapply Qle_lt_trans; eauto. }
  assert (H2 : (Qfloor x < n + 1)%Z).
  { rewrite Zlt_Qlt. eapply Qle_lt_trans; eauto. }
  lia.
Qed.

Lemma round_half_even_0 (x : Q) :
  0 <= x -> x <= 1 # 2 -> round_half_even x = 0%Z.
Proof.
  intros H0 H1. unfold round_half_even.
  assert (Hf : Qfloor x = 0%Z).
  { apply Qfloor_unique; simpl; unfold inject_Z; lra. }
  rewrite Hf. simpl.
  destruct (Qcompare (x - inject_Z 0) (1 # 2)) eqn:E; try reflexivity.
  apply Qgt_alt in E. unfold inject_Z in E. lra.
Qed.

Lemma round_half_even_1 (x : Q) :
  1 # 2 < x -> x < 3 # 2 -> round_half_even x = 1%Z.
Proof.
  intros H0 H1. unfold round_half_even.
  destruct (Qlt_le_dec x 1) as [Hlt | Hge].
  - assert (Hf : Qfloor x = 0%Z).
    { apply Qfloor_unique; simpl; unfold inject_Z; lra. }
    rewrite Hf.
    destruct (Qcompare (x - inject_Z 0) (1 # 2)) eqn:E; try reflexivity.
    + apply Qeq_alt in E. unfold inject_Z in E. lra.
    + apply Qlt_alt in E. unfold inject_Z in E. lra.
  - assert (Hf : Qfloor x = 1%Z).
    { apply Qfloor_unique; simpl; unfold inject_Z; lra. }
    rewrite Hf.
    destruct (Qcompare (x - inject_Z 1) (1 # 2)) eqn:E; try reflexivity.
    + apply Qeq_alt in E. unfold inject_Z in E. lra.
    + apply Qgt_alt in E. unfold inject_Z in E. lra.
Qed.

Lemma round_half_even_ge_2 (x : Q) :
  3 # 2 <= x -> (2 <= round_half_even x)%Z.
Proof.
  intros H. unfold round_half_even.
  pose proof (Qfloor_le x) as Hf.
  pose proof (Qlt_floor x) as Hc.
  assert (H1 : (1 <= Qfloor x)%Z).
  { assert (Hz : (1 < Qfloor x + 1)%Z); [ | lia ].
    rewrite Zlt_Qlt. eapply Qle_lt_trans; [ | exact Hc ].
    unfold inject_Z. lra. }
  destruct (Z.eq_dec (Qfloor x) 1) as [E1 | N1].
  - rewrite E1 in *.
    destruct (Qcompare (x - inject_Z 1) (1 # 2)) eqn:E; simpl; try lia.
    apply Qlt_alt in E. unfold inject_Z in E. lra.
  - destruct (Qcompare _ _); [ destruct (Z.even _) | | ]; lia.
Qed.

Lemma round_half_even_comp (x y : Q) :
  x == y -> round_half_even x = round_half_even y.
Proof.
  intros Hxy. unfold round_half_even.
  rewrite (Qfloor_comp x y Hxy).
  assert (Hc : Qcompare (x - inject_Z (Qfloor y)) (1 # 2)
               = Qcompare (y - inject_Z (Qfloor y)) (1 # 2)).
  { apply Qcompare_comp; [ now rewrite Hxy | reflexivity ]. }
  now rewrite Hc.
Qed.

(** A tie goes to the even neighbour: down from [n + 1/2] when [n] is even,
    up when [n] is odd. *)
Lemma round_half_even_tie (n : Z) :
  round_half_even (inject_Z n + (1 # 2)) = if Z.even n then n else (n + 1)%Z.
Proof.
  unfold round_half_even.
  assert (Hf : Qfloor (inject_Z n + (1 # 2)) = n).
  { apply Qfloor_unique; rewrite ?inject_Z_plus;
      change (inject_Z 1) with 1; lra. }
  rewrite Hf.
  assert (Hc : Qcompare (inject_Z n + (1 # 2) - inject_Z n) (1 # 2) = Eq).
  { apply Qeq_alt. ring. }
  now rewrite Hc.
Qed.

End Rounding.

(** ** The threshold walk *)

Section Walk.
Context {num : Type} `{Energy num}.
Import Quantizer QuantizerRule.

Lemma skipn_nth_error {A : Type} (l : list A) (n : nat) (x : A) :
  nth_error l n = Some x -> skipn n l = x :: skipn (S n) l.
Proof.
  revert l. induction n as [| n IH]; intros [| y l] Hn; simpl in *;
    try discriminate.
  - congruence.
  - now apply IH.
Qed.

Lemma skipn_nth_error_None {A : Type} (l : list A) (n : nat) :
  nth_error l n = None -> skipn n l = [].
Proof.
  intros Hn. apply skipn_all2. now apply nth_error_None.
Qed.

(** The result of the walk lies between the index it starts from and the
    end of the table. *)
Lemma rule_walk_bounds (e : num) (ahead : list Q) :
  forall counter c,
    rule_walk e ahead counter = ok c ->
    (counter <= c <= counter + List.length ahead)%nat.
Proof.
  induction ahead as [| t rest IH]; intros counter c Hw; simpl in Hw.
  - discriminate.
  - destruct (round_div e t) as [x | ratio]; simpl in Hw; [ discriminate | ].
    destruct (ratio =? 0)%Z.
    + inversion Hw; subst. simpl. lia.
    + destruct (ratio =? 1)%Z.
      * inversion Hw; subst. simpl. lia.
      * apply IH in Hw. simpl. lia.
Qed.

(** With enough fuel the loop of the code is the walk over the part of the
    table ahead of [counter], whatever the outcome. *)
Lemma while_loop_rule (e : num) (thresholds : list Q) :
  forall fuel counter division,
    division <> 1%Z ->
    (S (List.length thresholds - counter) <= fuel)%nat ->
    while_loop fuel e thresholds counter division
    = Some (rule_walk e (skipn counter thresholds) counter).
Proof.
  induction fuel as [| fuel IH]; intros counter division Hd Hf; [ lia | ].
  simpl. destruct (division =? 1)%Z eqn:Ed; [ lia | ].
  destruct (nth_error thresholds counter) as [t |] eqn:En.
  - rewrite (skipn_nth_error _ _ _ En). simpl.
    destruct (round_div e t) as [x | ratio]; simpl; [ reflexivity | ].
    destruct (ratio =? 0)%Z eqn:E0.
    + destruct fuel; reflexivity.
    + destruct (ratio =? 1)%Z eqn:E1.
      * apply Z.eqb_eq in E1. subst ratio. destruct fuel; reflexivity.
      * apply IH; [ lia | ].
        assert (counter < List.length thresholds)%nat
          by (apply nth_error_Some; congruence).
        lia.
  - rewrite (skipn_nth_error_None _ _ En). reflexivity.
Qed.

(** When the walk ends at [c], the body of the loop runs at most
    [c - counter + 1] times. *)
Lemma while_loop_ok (e : num) (thresholds : list Q) :
  forall fuel counter division c,
    division <> 1%Z ->
    rule_walk e (skipn counter thresholds) counter = ok c ->
    (c - counter + 1 <= fuel)%nat ->
    while_loop fuel e thresholds counter division = Some (ok c).
Proof.
  induction fuel as [| fuel IH]; intros counter division c Hd Hw Hf; [ lia | ].
  simpl. destruct (division =? 1)%Z eqn:Ed; [ lia | ].
  destruct (nth_error thresholds counter) as [t |] eqn:En.
  - rewrite (skipn_nth_error _ _ _ En) in Hw. simpl in Hw.
    destruct (round_div e t) as [x | ratio]; simpl in Hw; [ discriminate | ].
    destruct (ratio =? 0)%Z eqn:E0.
    + inversion Hw; subst. destruct fuel; reflexivity.
    + destruct (ratio =? 1)%Z eqn:E1.
      * apply Z.eqb_eq in E1. subst ratio. inversion Hw; subst.
        destruct fuel; reflexivity.
      * pose proof (rule_walk_bounds _ _ _ _ Hw) as Hb.
        apply IH; [ lia | exact Hw | lia ].
  - rewrite (skipn_nth_error_None _ _ En) in Hw. discriminate.
Qed.

Lemma rule_level_eq (c : nat) : level_of_counter c = rule_level c.
Proof. destruct c; reflexivity. Qed.

Lemma to_uint8_level (c : nat) :
  (c <= 127)%nat -> to_uint8 (level_of_counter c) = level_of_counter c.
Proof.
  intros Hc. unfold to_uint8. apply Z.mod_small.
  unfold level_of_counter. destruct (c =? 0)%nat; lia.
Qed.

Lemma energy_thresholds_length (FPS : Z) (thresholds : list Q) :
  energy_thresholds FPS = ok thresholds -> List.length thresholds = 11%nat.
Proof.
  unfold energy_thresholds.
  destruct (FPS =? 10)%Z; [ intros E; inversion E; reflexivity | ].
  destruct (FPS =? 15)%Z; [ intros E; inversion E; reflexivity | ].
  discriminate.
Qed.

Lemma energy_thresholds_supported (FPS : Z) :
  FPS = 10%Z \/ FPS = 15%Z ->
  exists thresholds, energy_thresholds FPS = ok thresholds.
Proof.
  intros [-> | ->]; eexists; reflexivity.
Qed.

Lemma chunk_level_rule (e : num) (thresholds : list Q) :
  (List.length thresholds <= 127)%nat ->
  chunk_level thresholds e
  = Some (c <- rule_walk e thresholds 0 ;; ok (rule_level c))%result.
Proof.
  intros Hlen. unfold chunk_level, counter_of, loop_fuel.
  rewrite while_loop_rule by (try discriminate; simpl; lia).
  simpl skipn.
  destruct (rule_walk e thresholds 0) as [x | c] eqn:Hw; simpl;
    [ reflexivity | ].
  apply rule_walk_bounds in Hw.
  rewrite to_uint8_level by lia. now rewrite rule_level_eq.
Qed.

End Walk.

(** ** The walk on rational energies *)

Section WalkQ.
Import Quantizer QuantizerRule.
Local Open Scope Q_scope.

(** The three outcomes of [round(e / t)] that the loop tells apart. *)
Lemma round_div_stop0 (e t : Q) :
  0 < t -> 0 <= e -> 2 * e <= t -> round_div e t = ok 0%Z.
Proof.
  intros Ht He Hc. unfold round_div, Energy_Q.
  destruct (Qeq_bool t 0) eqn:E; [ apply Qeq_bool_eq in E; lra | ].
  f_equal. apply round_half_even_0.
  - apply Qle_shift_div_l; lra.
  - apply Qle_shift_div_r; lra.
Qed.

Lemma round_div_stop1 (e t : Q) :
  0 < t -> t < 2 * e -> 2 * e < 3 * t -> round_div e t = ok 1%Z.
Proof.
  intros Ht Hlo Hhi. unfold round_div, Energy_Q.
  destruct (Qeq_bool t 0) eqn:E; [ apply Qeq_bool_eq in E; lra | ].
  f_equal. apply round_half_even_1.
  - apply Qlt_shift_div_l; lra.
  - apply Qlt_shift_div_r; lra.
Qed.

Lemma round_div_advance (e t : Q) :
  0 < t -> 3 * t <= 2 * e ->
  exists ratio, round_div e t = ok ratio /\ (2 <= ratio)%Z.
Proof.
  intros Ht Hc. unfold round_div, Energy_Q.
  destruct (Qeq_bool t 0) eqn:E; [ apply Qeq_bool_eq in E; lra | ].
  eexists; split; [ reflexivity | ].
  apply round_half_even_ge_2. apply Qle_shift_div_l; lra.
Qed.

(** The outcome at the head of the table, for a non-negative energy. *)
Lemma rule_walk_head (e t : Q) (rest : list Q) (counter : nat) :
  0 < t -> 0 <= e ->
  (2 * e <= t /\ rule_walk e (t :: rest) counter = ok counter)
  \/ (t < 2 * e < 3 * t /\ rule_walk e (t :: rest) counter = ok (S counter))
  \/ (3 * t <= 2 * e
      /\ rule_walk e (t :: rest) counter = rule_walk e rest (S counter)).
Proof.
  intros Ht He.
  destruct (Qlt_le_dec t (2 * e)) as [Hlo | Hle].
  - destruct (Qlt_le_dec (2 * e) (3 * t)) as [Hhi | Hge].
    + right; left. split; [ lra | ].
      simpl. rewrite round_div_stop1 by lra. reflexivity.
    + right; right. split; [ lra | ].
      destruct (round_div_advance e t Ht Hge) as (ratio & Hr & H2).
      simpl. rewrite Hr. simpl.
      destruct (ratio =? 0)%Z eqn:E0; [ lia | ].
      destruct (ratio =? 1)%Z eqn:E1; [ lia | ].
      reflexivity.
  - left. split; [ lra | ].
    simpl. rewrite round_div_stop0 by lra. reflexivity.
Qed.

(** The walk is non-decreasing in the energy, on every table of positive
    thresholds. *)
Lemma rule_walk_monotone (e1 e2 : Q) (ahead : list Q) :
  positive ahead -> 0 <= e1 -> e1 <= e2 ->
  forall counter c1 c2,
    rule_walk e1 ahead counter = ok c1 ->
    rule_walk e2 ahead counter = ok c2 ->
    (c1 <= c2)%nat.
Proof.
  intros Hpos He1 Hle.
  induction Hpos as [| t rest Ht Hrest IH]; intros counter c1 c2 H1 H2.
  - discriminate.
  - destruct (rule_walk_head e1 t rest counter Ht He1)
      as [[Ha Wa] | [[Ha Wa] | [Ha Wa]]];
    destruct (rule_walk_head e2 t rest counter Ht ltac:(lra))
      as [[Hb Wb] | [[Hb Wb] | [Hb Wb]]];
    rewrite Wa in H1; rewrite Wb in H2;
    try (inversion H1; inversion H2; subst; lia);
    try lra.
    + inversion H1; subst. apply rule_walk_bounds in H2. lia.
    + inversion H1; subst. apply rule_walk_bounds in H2. lia.
    + eapply IH; eauto.
Qed.

(** The walk stops at the latest at a threshold [t] with [2e < 3t]. *)
Lemma rule_walk_stops (e : Q) :
  0 <= e ->
  forall (k : nat) (ahead : list Q) (t : Q) (counter : nat),
    positive ahead ->
    nth_error ahead k = Some t ->
    2 * e < 3 * t ->
    exists c, rule_walk e ahead counter = ok c /\ (c <= counter + k + 1)%nat.
Proof.
  intros He. induction k as [| k IH]; intros ahead t counter Hpos Hn Hc;
    destruct ahead as [| t0 rest]; simpl in Hn; try discriminate;
    inversion Hpos as [| ? ? Ht0 Hrest]; subst.
  - inversion Hn; subst t0.
    destruct (rule_walk_head e t rest counter Ht0 He)
      as [[Ha Wa] | [[Ha Wa] | [Ha Wa]]].
    + exists counter. split; [ exact Wa | lia ].
    + exists (S counter). split; [ exact Wa | lia ].
    + lra.
  - destruct (rule_walk_head e t0 rest counter Ht0 He)
      as [[Ha Wa] | [[Ha Wa] | [Ha Wa]]].
    + exists counter. split; [ exact Wa | lia ].
    + exists (S counter). split; [ exact Wa | lia ].
    + destruct (IH rest t (S counter) Hrest Hn Hc) as (c & Hw & Hb).
      exists c. split; [ now rewrite Wa | lia ].
Qed.

Lemma energy_thresholds_positive (FPS : Z) (thresholds : list Q) :
  energy_thresholds FPS = ok thresholds -> positive thresholds.
Proof.
  unfold energy_thresholds, positive.
  destruct (FPS =? 10)%Z;
    [ intros E; inversion E; repeat constructor | ].
  destruct (FPS =? 15)%Z;
    [ intros E; inversion E; repeat constructor | ].
  discriminate.
Qed.

(** On energies of at most 10 the walk of a supported frame rate ends
    with a counter of at most 10. *)
Lemma rule_walk_in_range (FPS : Z) (thresholds : list Q) (e : Q) :
  energy_thresholds FPS = ok thresholds ->
  0 <= e -> e <= 10 ->
  exists c, rule_walk e thresholds 0 = ok c /\ (c <= 10)%nat.
Proof.
  intros Hth He0 He10.
  pose proof (energy_thresholds_positive _ _ Hth) as Hpos.
  unfold energy_thresholds in Hth.
  destruct (FPS =? 10)%Z.
  - inversion Hth; subst thresholds; clear Hth.
    destruct (rule_walk_stops e He0 8 _ (7 # 1) 0%nat Hpos eq_refl)
      as (c & Hw & Hb); [ lra | ].
    exists c. split; [ exact Hw | lia ].
  - destruct (FPS =? 15)%Z; [ | discriminate ].
    inversion Hth; subst thresholds; clear Hth.
    destruct (rule_walk_stops e He0 9 _ (7 # 1) 0%nat Hpos eq_refl)
      as (c & Hw & Hb); [ lra | ].
    exists c. split; [ exact Hw | lia ].
Qed.

End WalkQ.

(** ** The quantizer on energies between 0 and 10 *)

Section QuantizerRange.
Import Quantizer QuantizerRule.
Local Open Scope Q_scope.

Lemma rule_level_shape (c : nat) :
  (c <= 10)%nat ->
  zero_or_odd (rule_level c) /\ (0 <= rule_level c <= 21)%Z.
Proof.
  intros Hc. destruct c as [| c].
  - split; [ left; reflexivity | simpl; lia ].
  - split.
    + right. unfold rule_level.
      rewrite Z.add_comm, Z.mul_comm. apply Z.odd_add_mul_2.
    + unfold rule_level. lia.
Qed.

Lemma rule_level_monotone (c1 c2 : nat) :
  (c1 <= c2)%nat -> (rule_level c1 <= rule_level c2)%Z.
Proof.
  intros Hc. destruct c1, c2; unfold rule_level; lia.
Qed.

Lemma chunk_level_in_range (FPS : Z) (thresholds : list Q) (e : Q) :
  energy_thresholds FPS = ok thresholds ->
  in_range e ->
  exists c,
    rule_walk e thresholds 0 = ok c /\ (c <= 10)%nat
    /\ chunk_level thresholds e = Some (ok (rule_level c)).
Proof.
  intros Hth [He0 He10].
  destruct (rule_walk_in_range FPS thresholds e Hth He0 He10) as (c & Hw & Hc).
  exists c. repeat split; auto.
  rewrite chunk_level_rule
    by (rewrite (energy_thresholds_length _ _ Hth); lia).
  rewrite Hw. reflexivity.
Qed.

Lemma levels_of_in_range (FPS : Z) (thresholds : list Q) (es : list Q) :
  energy_thresholds FPS = ok thresholds ->
  Forall in_range es ->
  exists levels,
    levels_of thresholds es = Some (ok levels)
    /\ Forall2 (fun e l => chunk_level thresholds e = Some (ok l)) es levels.
Proof.
  intros Hth Hes. induction Hes as [| e es He Hes IH].
  - exists []. split; [ reflexivity | constructor ].
  - destruct IH as (ls & Hls & Hall).
    destruct (chunk_level_in_range FPS thresholds e Hth He)
      as (c & Hw & Hc & Hl).
    exists (rule_level c :: ls). split.
    + simpl. rewrite Hl, Hls. reflexivity.
    + constructor; assumption.
Qed.

End QuantizerRange.

(** ** Claims on the level quantizer *)

Section QuantizerClaims.
Import Quantizer QuantizerRule.
Local Open Scope Q_scope.

(** C1, as amended.  For every energy value and supported frame rate the
    counter of the quantizer is the result of this walk over the ordered
    threshold table, from the first threshold: divide the energy by the
    current threshold and round; a rounded ratio of 0 stops with the
    current index as the counter, a rounded ratio of 1 stops with the
    next index as the counter, any other ratio advances to the next
    threshold.  The level is 0 for the counter 0 and counter*2 + 1
    otherwise. *)
Theorem C1_counter_stops_at_ratio_0_or_1
        {num : Type} `{Energy num} (e : num) (FPS : Z) :
  FPS = 10%Z \/ FPS = 15%Z ->
  exists thresholds,
    energy_thresholds FPS = ok thresholds
    /\ counter_of (loop_fuel thresholds) e thresholds
       = Some (rule_walk e thresholds 0)
    /\ chunk_level thresholds e
       = Some (c <- rule_walk e thresholds 0 ;;
               ok (match c with
                   | O => 0%Z
                   | S _ => (Z.of_nat c * 2 + 1)%Z
                   end))%result.
Proof.
  intros Hfps.
  destruct (energy_thresholds_supported FPS Hfps) as (thresholds & Hth).
  exists thresholds. split; [ exact Hth | ].
  pose proof (energy_thresholds_length _ _ Hth) as Hlen.
  split.
  - unfold counter_of, loop_fuel.
    rewrite while_loop_rule by (try discriminate; simpl; lia).
    reflexivity.
  - rewrite chunk_level_rule by lia. reflexivity.
Qed.

Lemma C1_counter_stops_at_ratio_0_or_1_witness :
  exists thresholds,
    energy_thresholds 10 = ok thresholds
    /\ counter_of (loop_fuel thresholds) (1 # 1) thresholds
       = Some (rule_walk (1 # 1) thresholds 0)
    /\ chunk_level thresholds (1 # 1)
       = Some (c <- rule_walk (1 # 1) thresholds 0 ;;
               ok (match c with
                   | O => 0%Z
                   | S _ => (Z.of_nat c * 2 + 1)%Z
                   end))%result.
Proof.
  apply (C1_counter_stops_at_ratio_0_or_1 (1 # 1) 10%Z).
  left. reflexivity.
Defined.

(** C1, as stated, fails for the energy 1 at 10 frames per second: the
    ratio 1/0.8 rounds to 1, which ends the loop of the code with the
    counter 2 and the level 5, whereas the walk that stops only at a
    rounded ratio of 0 goes on to the counter 3 and the level 7. *)
Lemma C1_counterexample_energy_1_fps_10 :
  exists thresholds,
    energy_thresholds 10 = ok thresholds
    /\ counter_of (loop_fuel thresholds) (1 # 1) thresholds = Some (ok 2%nat)
    /\ QuantizerSpec.spec_counter (1 # 1) thresholds = 3%nat
    /\ get_number_of_rectangles [1 # 1] 10 = Some (ok [5%Z])
    /\ QuantizerSpec.spec_level (1 # 1) thresholds = 7%Z.
Proof.
  eexists. split; [ reflexivity | ].
  repeat split; vm_compute; reflexivity.
Qed.

(** C10.  At a half-integer ratio of the energy to a threshold the
    quantizer rounds to the even neighbour, as Python's [round] does: for
    every threshold [t] of a table and every energy [e] with
    [e / t = n + 1/2], the rounded ratio is [n] when [n] is even and [n + 1]
    when [n] is odd.  So, at 10 frames per second, the energy 0.05 (ratio
    0.5 to 0.1, rounded down to 0) has the level 0 and the energy 0.4
    (ratio 4 to 0.1, then 0.5 to 0.8, rounded down to 0) has the level 3;
    and at 15 frames per second the energy 1.5 (ratio 1.5 to the threshold
    1, rounded up to 2, so that the walk goes on to the threshold 1.5) has
    the level 7.  The three levels are the same on binary64 numbers. *)
Theorem C10_ties_round_to_even (FPS : Z) (thresholds : list Q)
        (t e : Q) (n : Z) :
  energy_thresholds FPS = ok thresholds ->
  In t thresholds ->
  e / t == inject_Z n + (1 # 2) ->
  round_half_even (inject_Z n + (1 # 2))
  = (if Z.even n then n else (n + 1)%Z)
  /\ round_div e t = ok (if Z.even n then n else (n + 1)%Z)
  /\ (1 # 20) / (1 # 10) == 1 # 2
  /\ round_half_even ((1 # 20) / (1 # 10)) = 0%Z
  /\ get_number_of_rectangles [1 # 20] 10 = Some (ok [0%Z])
  /\ (2 # 5) / (1 # 10) == 4 # 1
  /\ (2 # 5) / (8 # 10) == 1 # 2
  /\ round_half_even ((2 # 5) / (8 # 10)) = 0%Z
  /\ get_number_of_rectangles [2 # 5] 10 = Some (ok [3%Z])
  /\ (3 # 2) / (1 # 1) == 3 # 2
  /\ round_half_even ((3 # 2) / (1 # 1)) = 2%Z
  /\ get_number_of_rectangles [3 # 2] 15 = Some (ok [7%Z])
  /\ get_number_of_rectangles
       (map Binary64.of_decimal [1 # 20; 2 # 5]) 10
     = Some (ok [0%Z; 3%Z])
  /\ get_number_of_rectangles [Binary64.of_decimal (3 # 2)] 15
     = Some (ok [7%Z]).
Proof.
  intros Hth Hin Htie.
  split; [ apply round_half_even_tie | ].
  split.
  - pose proof (energy_thresholds_positive _ _ Hth) as Hpos.
    unfold positive in Hpos. rewrite Forall_forall in Hpos.
    specialize (Hpos t Hin).
    unfold round_div, Energy_Q.
    destruct (Qeq_bool t 0) eqn:E; [ apply Qeq_bool_eq in E; lra | ].
    f_equal. rewrite (round_half_even_comp _ _ Htie).
    apply round_half_even_tie.
  - repeat split; vm_compute; reflexivity.
Qed.

Lemma C10_ties_round_to_even_witness :
  round_half_even (inject_Z 1 + (1 # 2))
  = (if Z.even 1 then 1 else (1 + 1))%Z
  /\ round_div (3 # 2) (1 # 1) = ok (if Z.even 1 then 1 else (1 + 1))%Z
  /\ (1 # 20) / (1 # 10) == 1 # 2
  /\ round_half_even ((1 # 20) / (1 # 10)) = 0%Z
  /\ get_number_of_rectangles [1 # 20] 10 = Some (ok [0%Z])
  /\ (2 # 5) / (1 # 10) == 4 # 1
  /\ (2 # 5) / (8 # 10) == 1 # 2
  /\ round_half_even ((2 # 5) / (8 # 10)) = 0%Z
  /\ get_number_of_rectangles [2 # 5] 10 = Some (ok [3%Z])
  /\ (3 # 2) / (1 # 1) == 3 # 2
  /\ round_half_even ((3 # 2) / (1 # 1)) = 2%Z
  /\ get_number_of_rectangles [3 # 2] 15 = Some (ok [7%Z])
  /\ get_number_of_rectangles
       (map Binary64.of_decimal [1 # 20; 2 # 5]) 10
     = Some (ok [0%Z; 3%Z])
  /\ get_number_of_rectangles [Binary64.of_decimal (3 # 2)] 15
     = Some (ok [7%Z]).
Proof.
  apply (C10_ties_round_to_even
           15 [6 # 10; 1 # 1; 15 # 10; 2 # 1; 25 # 10; 3 # 1; 35 # 10; 4 # 1;
               5 # 1; 7 # 1; 10 # 1]
           (1 # 1) (3 # 2) 1).
  - reflexivity.
  - right. left. reflexivity.
  - reflexivity.
Defined.

(** C6.  For every sequence of energies between 0 and 10 and every
    supported frame rate the quantizer returns one level per energy, and
    every level is 0 or odd and lies between 0 and 21. *)
Theorem C6_levels_zero_or_odd_up_to_21 (es : list Q) (FPS : Z) :
  Forall in_range es ->
  FPS = 10%Z \/ FPS = 15%Z ->
  exists levels,
    get_number_of_rectangles es FPS = Some (ok levels)
    /\ List.length levels = List.length es
    /\ Forall (fun l => zero_or_odd l /\ (0 <= l <= 21)%Z) levels.
Proof.
  intros Hes Hfps.
  destruct (energy_thresholds_supported FPS Hfps) as (thresholds & Hth).
  unfold get_number_of_rectangles. rewrite Hth.
  destruct (levels_of_in_range FPS thresholds es Hth Hes) as (ls & Hls & Hall).
  exists ls. split; [ exact Hls | ]. clear Hls.
  induction Hall as [| e l es ls Hl Hall IH]; simpl.
  - split; [ reflexivity | constructor ].
  - inversion Hes as [| ? ? He Hes']; subst.
    destruct (IH Hes') as [Hlen Hshape].
    split; [ now rewrite Hlen | ].
    constructor; [ | exact Hshape ].
    destruct (chunk_level_in_range FPS thresholds e Hth He)
      as (c & _ & Hc & Hl').
    rewrite Hl in Hl'. inversion Hl'; subst.
    now apply rule_level_shape.
Qed.

Lemma C6_levels_zero_or_odd_up_to_21_witness :
  exists levels,
    get_number_of_rectangles [1 # 20; 9 # 10; 2 # 1; 10 # 1] 15
    = Some (ok levels)
    /\ List.length levels = 4%nat
    /\ Forall (fun l => zero_or_odd l /\ (0 <= l <= 21)%Z) levels.
Proof.
  apply (C6_levels_zero_or_odd_up_to_21 [1 # 20; 9 # 10; 2 # 1; 10 # 1] 15).
  - repeat constructor; unfold Qle; simpl; lia.
  - right. reflexivity.
Defined.

(** C7.  For a supported frame rate and energies [e1 < e2] between 0 and
    10, the level of [e1] is at most the level of [e2]. *)
Theorem C7_quantizer_monotone (FPS : Z) (e1 e2 : Q) :
  FPS = 10%Z \/ FPS = 15%Z ->
  in_range e1 -> in_range e2 -> e1 < e2 ->
  exists l1 l2,
    get_number_of_rectangles [e1; e2] FPS = Some (ok [l1; l2])
    /\ (l1 <= l2)%Z.
Proof.
  intros Hfps H1 H2 Hlt.
  destruct (energy_thresholds_supported FPS Hfps) as (thresholds & Hth).
  destruct (chunk_level_in_range FPS thresholds e1 Hth H1)
    as (c1 & Hw1 & _ & Hl1).
  destruct (chunk_level_in_range FPS thresholds e2 Hth H2)
    as (c2 & Hw2 & _ & Hl2).
  exists (rule_level c1), (rule_level c2). split.
  - unfold get_number_of_rectangles. rewrite Hth. simpl.
    rewrite Hl1, Hl2. reflexivity.
  - apply rule_level_monotone.
    apply (rule_walk_monotone e1 e2 thresholds
             (energy_thresholds_positive _ _ Hth) (proj1 H1)
             ltac:(lra) 0%nat c1 c2 Hw1 Hw2).
Qed.

Lemma C7_quantizer_monotone_witness :
  exists l1 l2,
    get_number_of_rectangles [9 # 10; 2 # 1] 10 = Some (ok [l1; l2])
    /\ (l1 <= l2)%Z.
Proof.
  apply (C7_quantizer_monotone 10 (9 # 10) (2 # 1)).
  - left. reflexivity.
  - split; unfold Qle; simpl; lia.
  - split; unfold Qle; simpl; lia.
  - unfold Qlt; simpl; lia.
Defined.

(** C8, as amended.  For every energy between 0 and 10 and every supported
    frame rate the walk ends within as many runs of the loop body as the
    table has entries, with a counter that is an index of the table, so
    that no threshold is read past the end of the table.  The code has no
    cap on the iteration and no clamp of the counter. *)
Theorem C8_walk_in_bounds_up_to_10 (FPS : Z) (e : Q) :
  FPS = 10%Z \/ FPS = 15%Z ->
  in_range e ->
  exists thresholds c,
    energy_thresholds FPS = ok thresholds
    /\ List.length thresholds = 11%nat
    /\ counter_of (List.length thresholds) e thresholds = Some (ok c)
    /\ (c < List.length thresholds)%nat.
Proof.
  intros Hfps He.
  destruct (energy_thresholds_supported FPS Hfps) as (thresholds & Hth).
  pose proof (energy_thresholds_length _ _ Hth) as Hlen.
  destruct (chunk_level_in_range FPS thresholds e Hth He)
    as (c & Hw & Hc & _).
  exists thresholds, c. repeat split; auto; [ | lia ].
  unfold counter_of. apply while_loop_ok; [ discriminate | exact Hw | lia ].
Qed.

Lemma C8_walk_in_bounds_up_to_10_witness :
  exists thresholds c,
    energy_thresholds 15 = ok thresholds
    /\ List.length thresholds = 11%nat
    /\ counter_of (List.length thresholds) (10 # 1) thresholds = Some (ok c)
    /\ (c < List.length thresholds)%nat.
Proof.
  apply (C8_walk_in_bounds_up_to_10 15 (10 # 1)).
  - right. reflexivity.
  - split; unfold Qle; simpl; lia.
Defined.

(** C8, as stated, fails for the energy 15 at 10 frames per second: no
    ratio of 15 to a threshold rounds to 0 or 1, the loop reads the
    threshold at index 11 of the 11-entry table, and the quantizer raises
    [IndexError] instead of clamping the counter. *)
Lemma C8_counterexample_energy_15_fps_10 :
  exists thresholds,
    energy_thresholds 10 = ok thresholds
    /\ List.length thresholds = 11%nat
    /\ nth_error thresholds 11 = None
    /\ counter_of 11 (15 # 1) thresholds = None
    /\ counter_of 12 (15 # 1) thresholds = Some (raise IndexError)
    /\ get_number_of_rectangles [15 # 1] 10 = Some (raise IndexError).
Proof.
  eexists. split; [ reflexivity | ].
  repeat split; vm_compute; reflexivity.
Qed.

End QuantizerClaims.

(** ** The chunk energy analyzer *)

Section AnalyzerFacts.
Import Analyzer.
Local Open Scope R_scope.

Lemma sum_squares_nonneg (xs : list R) :
  0 <= Numpy.sum (map (fun x => x * x) xs).
Proof.
  unfold Numpy.sum. induction xs as [| x xs IH]; simpl; [ Lra.lra | ].
  pose proof (Rle_0_sqr x) as Hx. unfold Rsqr in Hx. Lra.lra.
Qed.

Lemma sum_squares_pos (xs : list R) :
  Exists (fun x => x <> 0) xs ->
  0 < Numpy.sum (map (fun x => x * x) xs).
Proof.
  induction 1 as [x xs Hx | x xs _ IH].
  - pose proof (sum_squares_nonneg xs) as Hs.
    pose proof (Rsqr_pos_lt x Hx) as Hp.
    unfold Rsqr in Hp. unfold Numpy.sum in *. simpl. Lra.lra.
  - pose proof (Rle_0_sqr x) as Hx.
    unfold Rsqr in Hx. unfold Numpy.sum in *. simpl. Lra.lra.
Qed.

Lemma length_pos_INR {A : Type} (xs : list A) :
  xs <> [] -> 0 < INR (List.length xs).
Proof.
  intros Hne. destruct xs as [| x xs]; [ congruence | ].
  apply lt_0_INR. simpl. lia.
Qed.

Lemma mean_energy_nonempty (chunk : list Q) :
  chunk <> [] -> mean_energy chunk = Num (raw_energy chunk).
Proof.
  intros Hne. unfold mean_energy, raw_energy, Numpy.mean.
  destruct chunk; [ congruence | reflexivity ].
Qed.

Lemma raw_energy_nonneg (chunk : list Q) :
  chunk <> [] -> 0 <= raw_energy chunk.
Proof.
  intros Hne. unfold raw_energy.
  apply Rmult_le_pos; [ apply sum_squares_nonneg | ].
  apply Rlt_le, Rinv_0_lt_compat, length_pos_INR.
  destruct chunk; [ congruence | discriminate ].
Qed.

Lemma raw_energy_pos (chunk : list Q) :
  Exists (fun x => ~ (x == 0)%Q) chunk -> 0 < raw_energy chunk.
Proof.
  intros Hex. unfold raw_energy.
  apply Rmult_lt_0_compat.
  - apply sum_squares_pos. induction Hex as [x xs Hx | x xs _ IH]; simpl.
    + left. intros E. apply Hx. apply eqR_Qeq. rewrite E.
      unfold Q2R. simpl. Lra.lra.
    + right. exact IH.
  - apply Rinv_0_lt_compat, length_pos_INR.
    destruct Hex; discriminate.
Qed.

(** The maximum of an array of finite values. *)
Lemma fold_maximum_finite (rs : list R) :
  forall r0,
    exists m,
      fold_left Numpy.maximum (map Num rs) (Num r0) = Num m
      /\ In m (r0 :: rs)
      /\ Forall (fun r => r <= m) (r0 :: rs).
Proof.
  induction rs as [| r rs IH]; intros r0; simpl.
  - exists r0. repeat split; [ now left | ]. constructor; [ Lra.lra | constructor ].
  - destruct (Rle_dec r0 r) as [Hle | Hgt].
    + destruct (IH r) as (m & Hm & Hin & Hall).
      exists m. split; [ exact Hm | ]. split.
      * right. exact Hin.
      * inversion Hall; subst. constructor; [ Lra.lra | ]. constructor; auto.
    + destruct (IH r0) as (m & Hm & Hin & Hall).
      exists m. split; [ exact Hm | ]. split.
      * destruct Hin as [-> | Hin]; [ now left | right; now right ].
      * inversion Hall; subst. constructor; [ Lra.lra | ].
        constructor; [ Lra.lra | auto ].
Qed.

Lemma max_finite (rs : list R) :
  rs <> [] ->
  exists m,
    Numpy.max (map Num rs) = ok (Num m)
    /\ In m rs /\ Forall (fun r => r <= m) rs.
Proof.
  intros Hne. destruct rs as [| r0 rs]; [ congruence | ].
  destruct (fold_maximum_finite rs r0) as (m & Hm & Hin & Hall).
  exists m. simpl. rewrite Hm. auto.
Qed.

(** One entry of the equalized array, for a positive maximum [m]. *)
Lemma equalize_entry (r m : R) :
  0 <= r -> r <= m -> 0 < m ->
  Numpy.scale (Numpy.sqrt (Numpy.divide (Num r) (Num m))) 10
  = Num (sqrt (r / m) * 10)
  /\ 0 <= sqrt (r / m) * 10 <= 10.
Proof.
  intros Hr Hrm Hm. unfold Numpy.divide.
  destruct (Req_dec_T m 0) as [E | _]; [ Lra.lra | ].
  assert (H0 : 0 <= r / m).
  { apply Rmult_le_pos; [ exact Hr | ].
    apply Rlt_le, Rinv_0_lt_compat, Hm. }
  assert (H1 : r / m <= 1).
  { apply Rmult_le_reg_r with m; [ exact Hm | ].
    unfold Rdiv. rewrite Rmult_assoc, Rinv_l by Lra.lra. Lra.lra. }
  unfold Numpy.sqrt. destruct (Rlt_dec (r / m) 0) as [Hn | _]; [ Lra.lra | ].
  split; [ reflexivity | ].
  pose proof (sqrt_pos (r / m)) as Hs0.
  assert (Hs1 : sqrt (r / m) <= 1).
  { rewrite <- sqrt_1. apply sqrt_le_1_alt. exact H1. }
  Lra.lra.
Qed.

Lemma equalize_finite (rs : list R) :
  Forall (fun r => 0 <= r) rs ->
  Exists (fun r => 0 < r) rs ->
  exists m,
    In m rs /\ 0 < m /\ Forall (fun r => r <= m) rs
    /\ equalize (map Num rs)
       = ok (map (fun r => Num (sqrt (r / m) * 10)) rs).
Proof.
  intros Hnn Hex.
  assert (Hne : rs <> []) by (destruct Hex; discriminate).
  destruct (max_finite rs Hne) as (m & Hmax & Hin & Hall).
  assert (Hm : 0 < m).
  { apply Exists_exists in Hex. destruct Hex as (r & Hr & Hp).
    rewrite Forall_forall in Hall. specialize (Hall r Hr). Lra.lra. }
  exists m. repeat split; auto.
  unfold equalize. rewrite Hmax. simpl. f_equal.
  rewrite map_map. apply map_ext_in. intros r Hr.
  rewrite Forall_forall in Hnn, Hall.
  apply equalize_entry; auto.
Qed.

(** An all-silent array: every entry is [0/0]. *)
Lemma equalize_silent (energy_of_chunks : list float64) :
  energy_of_chunks <> [] ->
  Forall (fun x => x = Num 0) energy_of_chunks ->
  equalize energy_of_chunks = ok (map (fun _ => NaN) energy_of_chunks).
Proof.
  intros Hne Hall.
  assert (Hmax : Numpy.max energy_of_chunks = ok (Num 0)).
  { destruct energy_of_chunks as [| x xs]; [ congruence | ].
    inversion Hall as [| ? ? Hx Hxs]; subst. simpl. f_equal.
    clear Hne Hall. induction Hxs as [| y ys Hy Hys IH]; simpl; auto.
    subst y. simpl. destruct (Rle_dec 0 0); exact IH. }
  unfold equalize. rewrite Hmax. simpl. f_equal.
  apply map_ext_in. intros x Hx.
  rewrite Forall_forall in Hall. rewrite (Hall x Hx).
  unfold Numpy.divide.
  destruct (Req_dec_T 0 0) as [_ | N]; [ reflexivity | congruence ].
Qed.

(** The analyzer on a recording whose windows all have the raw mean energy
    0: it returns one [nan] per window. *)
Lemma analyzer_silent `{Collaborators} (record : AudioSegment) (FPS : Z) :
  FPS <> 0%Z ->
  make_chunks record (1000 / inject_Z FPS)%Q <> [] ->
  Forall (fun chunk => mean_energy chunk = Num 0)
         (make_chunks record (1000 / inject_Z FPS)%Q) ->
  calculate_energy_level_of_chunks record FPS
  = ok (map (fun _ => NaN) (make_chunks record (1000 / inject_Z FPS)%Q)).
Proof.
  intros Hfps Hne Hall. unfold calculate_energy_level_of_chunks.
  destruct (FPS =? 0)%Z eqn:E; [ apply Z.eqb_eq in E; congruence | ].
  rewrite equalize_silent.
  - now rewrite map_map.
  - destruct (make_chunks record (1000 / inject_Z FPS)%Q);
      [ congruence | discriminate ].
  - apply Forall_map. exact Hall.
Qed.

End AnalyzerFacts.

(** ** Claims on the chunk energy analyzer *)

Section AnalyzerClaims.
Import Analyzer.
Local Open Scope R_scope.

(** C5, as amended.  For every recording that is not all-silent and whose
    windows each hold at least one sample, the analyzer returns one value
    per window, each equal to
    sqrt(raw mean energy / maximum raw mean energy) * 10; every value lies
    between 0 and 10 and the value 10 occurs, so that the maximum of the
    sequence is exactly 10. *)
Theorem C5_equalized_energies_peak_at_10
        `{Collaborators} (record : AudioSegment) (FPS : Z) :
  FPS <> 0%Z ->
  windows_nonempty (make_chunks record (1000 / inject_Z FPS)%Q) ->
  not_all_silent (make_chunks record (1000 / inject_Z FPS)%Q) ->
  exists (m : R) (values : list R),
    calculate_energy_level_of_chunks record FPS = ok (map Num values)
    /\ In m (map raw_energy (make_chunks record (1000 / inject_Z FPS)%Q))
    /\ Forall (fun chunk => raw_energy chunk <= m)
              (make_chunks record (1000 / inject_Z FPS)%Q)
    /\ values = map (fun chunk => sqrt (raw_energy chunk / m) * 10)
                    (make_chunks record (1000 / inject_Z FPS)%Q)
    /\ Forall (fun v => 0 <= v <= 10) values
    /\ In 10 values.
Proof.
  intros Hfps Hne Hns.
  set (chunks := make_chunks record (1000 / inject_Z FPS)%Q) in *.
  assert (Hmean : map mean_energy chunks = map Num (map raw_energy chunks)).
  { rewrite map_map. apply map_ext_in. intros chunk Hin.
    unfold windows_nonempty in Hne. rewrite Forall_forall in Hne.
    apply mean_energy_nonempty. now apply Hne. }
  assert (Hnn : Forall (fun r => 0 <= r) (map raw_energy chunks)).
  { apply Forall_map. unfold windows_nonempty in Hne.
    eapply Forall_impl; [ | exact Hne ].
    intros chunk Hc. now apply raw_energy_nonneg. }
  assert (Hex : Exists (fun r => 0 < r) (map raw_energy chunks)).
  { apply Exists_map. unfold not_all_silent in Hns.
    eapply Exists_impl; [ | exact Hns ].
    intros chunk Hc. now apply raw_energy_pos. }
  destruct (equalize_finite _ Hnn Hex) as (m & Hin & Hm & Hall & Heq).
  exists m, (map (fun chunk => sqrt (raw_energy chunk / m) * 10) chunks).
  assert (Hbound : forall chunk, In chunk chunks ->
                     0 <= raw_energy chunk <= m).
  { intros chunk Hc. rewrite Forall_forall in Hnn, Hall.
    split; [ apply Hnn | apply Hall ]; now apply in_map. }
  repeat split.
  - unfold calculate_energy_level_of_chunks.
    destruct (FPS =? 0)%Z eqn:E; [ apply Z.eqb_eq in E; congruence | ].
    fold chunks. rewrite Hmean, Heq. f_equal.
    now rewrite !map_map.
  - exact Hin.
  - apply Forall_forall. intros chunk Hc. now apply Hbound.
  - apply Forall_map. apply Forall_forall. intros chunk Hc.
    destruct (Hbound chunk Hc) as [H0 H1].
    apply (equalize_entry _ _ H0 H1 Hm).
  - apply in_map_iff in Hin. destruct Hin as (chunk & Hr & Hc).
    apply in_map_iff. exists chunk. split; [ | exact Hc ].
    rewrite Hr. replace (m / m) with 1 by (field; Lra.lra).
    rewrite sqrt_1. Lra.lra.
Qed.

End AnalyzerClaims.

Section AnalyzerExamples.
Import Analyzer Sample.
Local Open Scope R_scope.

Lemma sample_chunks :
  @make_chunks sample_world sample_recording (1000 / inject_Z 10)%Q
  = [[1; 0]; [2; 2]]%Q.
Proof. vm_compute. reflexivity. Qed.

Lemma silent_chunks :
  @make_chunks silent_world silent_recording (1000 / inject_Z 10)%Q
  = [[0; 0]; [0; 0]]%Q.
Proof. vm_compute. reflexivity. Qed.

Lemma C5_equalized_energies_peak_at_10_witness :
  exists (m : R) (values : list R),
    @calculate_energy_level_of_chunks sample_world sample_recording 10
    = ok (map Num values)
    /\ In m (map raw_energy
                 (@make_chunks sample_world sample_recording
                               (1000 / inject_Z 10)%Q))
    /\ Forall (fun chunk => raw_energy chunk <= m)
              (@make_chunks sample_world sample_recording
                            (1000 / inject_Z 10)%Q)
    /\ values = map (fun chunk => sqrt (raw_energy chunk / m) * 10)
                    (@make_chunks sample_world sample_recording
                                  (1000 / inject_Z 10)%Q)
    /\ Forall (fun v => 0 <= v <= 10) values
    /\ In 10 values.
Proof.
  apply (@C5_equalized_energies_peak_at_10 sample_world sample_recording 10).
  - discriminate.
  - rewrite sample_chunks. repeat constructor; discriminate.
  - rewrite sample_chunks. apply Exists_cons_hd. apply Exists_cons_hd.
    intros E. discriminate E.
Defined.

Lemma mean_energy_silence : mean_energy [0; 0]%Q = Num 0.
Proof.
  rewrite mean_energy_nonempty by discriminate. f_equal.
  unfold raw_energy, Numpy.sum, Q2R. simpl. Lra.lra.
Qed.

(** C5, as stated, fails for a recording that is not all-silent but has
    a window without samples: one sample at 8 samples per second makes, at
    10 frames per second, an empty first window and a second window with
    the sample.  The mean of the empty window is [nan], so is the maximum,
    and the analyzer returns [nan] for both windows: no value is 10. *)
Lemma C5_counterexample_empty_window :
  @make_chunks sparse_world sparse_recording (1000 / inject_Z 10)%Q
  = [[]; [5]]%Q
  /\ not_all_silent
       (@make_chunks sparse_world sparse_recording (1000 / inject_Z 10)%Q)
  /\ @calculate_energy_level_of_chunks sparse_world sparse_recording 10
     = ok [NaN; NaN]
  /\ ~ In (Num 10) [NaN; NaN]
  /\ ~ (exists values : list R,
          @calculate_energy_level_of_chunks sparse_world sparse_recording 10
          = ok (map Num values)).
Proof.
  assert (Hc : @make_chunks sparse_world sparse_recording
                 (1000 / inject_Z 10)%Q = [[]; [5]]%Q)
    by (vm_compute; reflexivity).
  assert (Hr : @calculate_energy_level_of_chunks sparse_world
                 sparse_recording 10 = ok [NaN; NaN]).
  { unfold calculate_energy_level_of_chunks.
    change (10 =? 0)%Z with false. cbv iota. rewrite Hc. reflexivity. }
  split; [ exact Hc | ]. split.
  - rewrite Hc. apply Exists_cons_tl. apply Exists_cons_hd.
    apply Exists_cons_hd. intros E. discriminate E.
  - split; [ exact Hr | ]. split.
    + intros [E | [E | []]]; discriminate E.
    + intros (values & Hv). rewrite Hr in Hv.
      destruct values as [| v values]; discriminate Hv.
Qed.

(** C3 at a silent recording.  The maximum of the raw energies is 0, every
    entry of the result is [0/0], and the analyzer returns an array of
    [nan] (numpy only warns): not an array of zeros.  The quantizer then
    raises [ValueError] on the first entry, since [round] refuses [nan]. *)
Theorem C3_silent_recording_yields_nan :
  @calculate_energy_level_of_chunks silent_world silent_recording 10
  = ok [NaN; NaN]
  /\ @calculate_energy_level_of_chunks silent_world silent_recording 10
     <> ok [Num 0; Num 0]
  /\ Quantizer.get_number_of_rectangles [NaN; NaN] 10
     = Some (raise ValueError).
Proof.
  assert (E : @calculate_energy_level_of_chunks silent_world
                silent_recording 10 = ok [NaN; NaN]).
  { unfold calculate_energy_level_of_chunks.
    change (10 =? 0)%Z with false. cbv iota.
    rewrite silent_chunks.
    change (map mean_energy [[0; 0]; [0; 0]]%Q)
      with [mean_energy [0; 0]%Q; mean_energy [0; 0]%Q].
    rewrite mean_energy_silence.
    rewrite equalize_silent; [ reflexivity | discriminate | ].
    repeat constructor. }
  split; [ exact E | ]. split.
  - rewrite E. discriminate.
  - reflexivity.
Qed.

End AnalyzerExamples.

(** ** Claims on the audio preprocessor *)

Section PreprocessorClaims.
Import Preprocessor Sample.
Local Open Scope Q_scope.

(** C2 at a recording with the samples 0 and 2.  The code normalizes
    first (to 0 and 32768) and removes the DC offset second, which leaves
    -16384 and 16384: a peak at half of the range.  DC removal followed
    by normalization gives -32768 and 32768. *)
Theorem C2_normalizes_before_dc_removal :
  exists record,
    @load_and_process_audio biased_world Main.AUDIO_FILE_NAME = ok record
    /\ record = Pydub.remove_dc_offset (Pydub.normalize biased_recording)
    /\ Forall2 Qeq (samples (Pydub.normalize biased_recording)) [0; 32768]
    /\ Forall2 Qeq (samples record) [- (16384); 16384]
    /\ Pydub.peak (samples record) == 16384
    /\ max_possible_amplitude record == 32768
    /\ Forall2 Qeq (samples (dc_removal_then_normalization biased_recording))
               [- (32768); 32768]
    /\ ~ Pydub.same_samples
         record (dc_removal_then_normalization biased_recording).
Proof.
  eexists. split; [ reflexivity | ]. split; [ reflexivity | ].
  repeat split.
  - repeat constructor.
  - repeat constructor.
  - repeat constructor.
  - intros Hs. inversion Hs as [| ? ? ? ? Hhd _]; subst.
    vm_compute in Hhd. discriminate Hhd.
Qed.

End PreprocessorClaims.

(** ** Claims on the program *)

Section MainClaims.
Context `{Collaborators}.
Import Main.

Lemma unsupported_fps_raises {num : Type} `{Energy num}
      (energy_of_chunks : list num) (FPS : Z) :
  FPS <> 10%Z -> FPS <> 15%Z ->
  Quantizer.get_number_of_rectangles energy_of_chunks FPS
  = Some (raise ValueError).
Proof.
  intros H10 H15. unfold Quantizer.get_number_of_rectangles,
    Quantizer.energy_thresholds.
  apply Z.eqb_neq in H10, H15. now rewrite H10, H15.
Qed.

(** C4, as amended.  With a frame rate other than 10 and 15 the run fails
    before any rendering or muxing work; the audio decoding is always
    started first.  The frame rate is checked by the quantizer only: when
    the recording is decoded and the energy analysis returns, both have
    been performed when the quantizer raises [ValueError]. *)
Theorem C4_unsupported_fps_fails_in_quantizer (FPS : Z) :
  FPS <> 10%Z -> FPS <> 15%Z ->
  exists log e,
    run FPS = Some (AudioDecoding AUDIO_FILE_NAME :: log, raise e)
    /\ Forall before_rendering log
    /\ (forall record energy_of_chunks,
           Preprocessor.load_and_process_audio AUDIO_FILE_NAME = ok record ->
           Analyzer.calculate_energy_level_of_chunks record FPS
           = ok energy_of_chunks ->
           log = [EnergyAnalysis; Quantization] /\ e = ValueError).
Proof.
  intros H10 H15. unfold run, main, Py.bind, Py.emit, Py.lift. simpl.
  destruct (Preprocessor.load_and_process_audio AUDIO_FILE_NAME)
    as [x | record] eqn:Hl.
  - exists [], x. split; [ reflexivity | ]. split; [ constructor | ].
    intros ? ? Habs; discriminate Habs.
  - simpl.
    destruct (Analyzer.calculate_energy_level_of_chunks record FPS)
      as [x | energies] eqn:Ha.
    + exists [EnergyAnalysis], x. split; [ reflexivity | ]. split.
      * constructor; [ right; left; reflexivity | constructor ].
      * intros r es Hr Hes. inversion Hr; subst.
        rewrite Ha in Hes. discriminate Hes.
    + simpl. unfold Py.lift_partial.
      rewrite (unsupported_fps_raises energies FPS H10 H15).
      exists [EnergyAnalysis; Quantization], ValueError.
      split; [ reflexivity | ]. split.
      * constructor; [ right; left; reflexivity | ].
        constructor; [ right; right; reflexivity | constructor ].
      * intros; split; reflexivity.
Qed.

End MainClaims.

Section MainExamples.
Import Main Sample.

Lemma calculate_energy_returns `{Collaborators} (record : AudioSegment)
      (FPS : Z) :
  FPS <> 0%Z ->
  make_chunks record (1000 / inject_Z FPS) <> [] ->
  exists energy_of_chunks,
    Analyzer.calculate_energy_level_of_chunks record FPS
    = ok energy_of_chunks.
Proof.
  intros Hfps Hne. unfold Analyzer.calculate_energy_level_of_chunks.
  destruct (FPS =? 0)%Z eqn:E; [ apply Z.eqb_eq in E; congruence | ].
  destruct (make_chunks record (1000 / inject_Z FPS)) as [| c cs];
    [ congruence | ].
  unfold Analyzer.equalize. simpl. eexists. reflexivity.
Qed.

(** A run in which the quantizer raises. *)
Lemma run_quantizer_raises `{Collaborators} (FPS : Z)
      (record : AudioSegment) (energy_of_chunks : list float64) (e : exn) :
  Preprocessor.load_and_process_audio AUDIO_FILE_NAME = ok record ->
  Analyzer.calculate_energy_level_of_chunks record FPS = ok energy_of_chunks ->
  Quantizer.get_number_of_rectangles energy_of_chunks FPS = Some (raise e) ->
  run FPS
  = Some ([AudioDecoding AUDIO_FILE_NAME; EnergyAnalysis; Quantization],
          raise e).
Proof.
  intros Hl Ha Hq.
  unfold run, main, Py.bind, Py.emit, Py.lift, Py.lift_partial.
  rewrite Hl. simpl. rewrite Ha. simpl. rewrite Hq. reflexivity.
Qed.

Lemma C4_unsupported_fps_fails_in_quantizer_witness :
  exists log e,
    @run sample_world 12
    = Some (AudioDecoding AUDIO_FILE_NAME :: log, raise e)
    /\ Forall before_rendering log
    /\ (forall record energy_of_chunks,
           @Preprocessor.load_and_process_audio sample_world AUDIO_FILE_NAME
           = ok record ->
           @Analyzer.calculate_energy_level_of_chunks sample_world record 12
           = ok energy_of_chunks ->
           log = [EnergyAnalysis; Quantization] /\ e = ValueError).
Proof.
  apply (@C4_unsupported_fps_fails_in_quantizer sample_world 12);
    discriminate.
Defined.

(** C4, as stated, fails at 12 frames per second: the recording is decoded
    and its energies are analyzed before the quantizer rejects the frame
    rate. *)
Lemma C4_counterexample_fps_12 :
  @run sample_world 12
  = Some ([AudioDecoding AUDIO_FILE_NAME; EnergyAnalysis; Quantization],
          raise ValueError).
Proof.
  set (record := Pydub.remove_dc_offset (Pydub.normalize sample_recording)).
  assert (Hl : @Preprocessor.load_and_process_audio sample_world
                 AUDIO_FILE_NAME = ok record) by reflexivity.
  destruct (@calculate_energy_returns sample_world record 12) as (es & Ha).
  - discriminate.
  - vm_compute. discriminate.
  - apply (@run_quantizer_raises sample_world 12 record es ValueError Hl Ha).
    apply unsupported_fps_raises; discriminate.
Qed.

(** The run of the program on the silent recording at 10 frames per
    second: the [nan] energies of the analyzer make the quantizer raise, and
    the run ends with [ValueError] before any frame is rendered. *)
Lemma silent_run_raises :
  @run silent_world 10
  = Some ([AudioDecoding AUDIO_FILE_NAME; EnergyAnalysis; Quantization],
          raise ValueError).
Proof.
  set (record := Pydub.remove_dc_offset (Pydub.normalize silent_recording)).
  assert (Hl : @Preprocessor.load_and_process_audio silent_world
                 AUDIO_FILE_NAME = ok record) by reflexivity.
  assert (Hc : @make_chunks silent_world record (1000 / inject_Z 10)
               = [[0 # 4; 0 # 4]; [0 # 4; 0 # 4]]) by (vm_compute; reflexivity).
  assert (Hm : Analyzer.mean_energy [0 # 4; 0 # 4] = Num 0).
  { rewrite mean_energy_nonempty by discriminate. f_equal.
    unfold Analyzer.raw_energy, Numpy.sum, Q2R. simpl. Lra.lra. }
  assert (Ha : @Analyzer.calculate_energy_level_of_chunks silent_world record 10
               = ok [NaN; NaN]).
  { rewrite (@analyzer_silent silent_world record 10); rewrite ?Hc;
      [ reflexivity | discriminate | discriminate | ].
    repeat constructor; exact Hm. }
  apply (@run_quantizer_raises silent_world 10 record [NaN; NaN] ValueError
           Hl Ha).
  reflexivity.
Qed.

End MainExamples.

(** ** The frame renderer *)

Section RendererFacts.
Import Renderer.

Lemma below_half (i count : Z) :
  Qlt_bool (inject_Z i) (inject_Z count / 2) = (2 * i <? count)%Z.
Proof.
  unfold Qlt_bool, Qle_bool, Qdiv, Qmult, Qinv, inject_Z.
  cbn [Qnum Qden].
  destruct (Z.leb_spec (count * 1 * 1) (i * Z.pos (1 * 2)));
    destruct (Z.ltb_spec (2 * i) count); simpl; try reflexivity; lia.
Qed.

Lemma above_half (i count : Z) :
  Qlt_bool (inject_Z count / 2) (inject_Z i) = (count <? 2 * i)%Z.
Proof.
  unfold Qlt_bool, Qle_bool, Qdiv, Qmult, Qinv, inject_Z.
  cbn [Qnum Qden].
  destruct (Z.leb_spec (i * Z.pos (1 * 2)) (count * 1 * 1));
    destruct (Z.ltb_spec count (2 * i)); simpl; try reflexivity; lia.
Qed.

Lemma draw_column_body_appends (center : Z * Z) (count width height : Z)
      (img : image) (i : Z) :
  drawn (draw_column_body center count width height img i)
  = drawn img ++ body_rectangles center count width height i.
Proof.
  unfold body_rectangles, draw_column_body.
  destruct (i =? 0)%Z;
    destruct ((0 <? i)%Z && Qlt_bool (inject_Z i) (inject_Z count / 2));
    destruct (Qlt_bool (inject_Z count / 2) (inject_Z i));
    simpl; rewrite <- ?app_assoc, ?app_nil_r; reflexivity.
Qed.

Lemma draw_column_body_size (center : Z * Z) (count width height : Z)
      (img : image) (i : Z) :
  img_w (draw_column_body center count width height img i) = img_w img
  /\ img_h (draw_column_body center count width height img i) = img_h img.
Proof.
  unfold draw_column_body.
  destruct (i =? 0)%Z;
    destruct ((0 <? i)%Z && Qlt_bool (inject_Z i) (inject_Z count / 2));
    destruct (Qlt_bool (inject_Z count / 2) (inject_Z i));
    simpl; split; reflexivity.
Qed.

Lemma fold_body_appends (center : Z * Z) (count width height : Z)
      (l : list Z) :
  forall img,
    drawn (fold_left (draw_column_body center count width height) l img)
    = drawn img ++ flat_map (body_rectangles center count width height) l.
Proof.
  induction l as [| i l IH]; intros img; simpl.
  - now rewrite app_nil_r.
  - rewrite IH, draw_column_body_appends. now rewrite app_assoc.
Qed.

(** [draw_column] only adds rectangles, the same ones on every image. *)
Lemma draw_column_appends (img : image) (center : Z * Z)
      (count width height : Z) :
  drawn (draw_column img center count width height)
  = drawn img
    ++ drawn (draw_column (mkImage 0 0 []) center count width height).
Proof.
  unfold draw_column. now rewrite !fold_body_appends.
Qed.

Lemma range_spec (count i : Z) :
  In i (range 0 count) -> (0 <= i < count)%Z.
Proof.
  unfold range. rewrite in_map_iff. intros (k & <- & Hk).
  apply in_seq in Hk. lia.
Qed.

Lemma range_length (count : Z) :
  List.length (range 0 count) = Z.to_nat count.
Proof.
  unfold range. rewrite length_map, length_seq. f_equal. lia.
Qed.

(** An index that is not half of the count adds one rectangle. *)
Lemma body_rectangles_one (center : Z * Z) (count width height i : Z) :
  (0 <= i < count)%Z -> (2 * i <> count)%Z ->
  List.length (body_rectangles center count width height i) = 1%nat.
Proof.
  intros Hi Hhalf. unfold body_rectangles, draw_column_body.
  rewrite below_half, above_half.
  destruct (Z.eqb_spec i 0); destruct (Z.ltb_spec 0 i);
    destruct (Z.ltb_spec (2 * i) count);
    destruct (Z.ltb_spec count (2 * i)); try lia; reflexivity.
Qed.

Lemma flat_map_length_one {A B : Type} (f : A -> list B) (l : list A) :
  (forall a, In a l -> List.length (f a) = 1%nat) ->
  List.length (flat_map f l) = List.length l.
Proof.
  induction l as [| a l IH]; intros Hf; simpl; [ reflexivity | ].
  rewrite length_app, Hf by (now left).
  rewrite IH; [ reflexivity | ]. intros b Hb. apply Hf. now right.
Qed.

(** A column of an odd count, or of a count that is not positive, holds
    exactly [count] rectangles, none when the count is not positive. *)
Lemma draw_column_length (center : Z * Z) (count width height : Z) :
  (count <= 0)%Z \/ Z.odd count = true ->
  List.length
    (drawn (draw_column (mkImage 0 0 []) center count width height))
  = Z.to_nat count.
Proof.
  intros Hc. unfold draw_column. rewrite fold_body_appends. simpl.
  rewrite flat_map_length_one; [ apply range_length | ].
  intros i Hi. apply range_spec in Hi.
  apply body_rectangles_one; [ exact Hi | ].
  destruct Hc as [Hc | Hc]; [ lia | ].
  intros E. rewrite <- E, Z.odd_mul in Hc. discriminate Hc.
Qed.

Lemma draw_rectangles_body_appends (center : Z * Z)
      (count width height : Z) (img : image) (i : Z) :
  In i index ->
  drawn (draw_rectangles_body center count width height img i)
  = drawn img ++ column center count width height i.
Proof.
  unfold index. intros Hi.
  assert (Hcases : i = (-2)%Z \/ i = (-1)%Z \/ i = 0%Z \/ i = 1%Z
                   \/ i = 2%Z) by (simpl in Hi; intuition lia).
  unfold draw_rectangles_body, column, column_count.
  destruct Hcases as [-> | [-> | [-> | [-> | ->]]]];
    cbn [Z.eqb is_in existsb orb Pos.eqb];
    apply draw_column_appends.
Qed.

(** The five columns of [draw_rectangles], from left to right. *)
Lemma draw_rectangles_columns (img : image) (center : Z * Z)
      (count width height : Z) :
  drawn (draw_rectangles img center count width height)
  = drawn img
    ++ column center count width height (-2)
    ++ column center count width height (-1)
    ++ column center count width height 0
    ++ column center count width height 1
    ++ column center count width height 2.
Proof.
  unfold draw_rectangles, index. cbn [fold_left].
  rewrite !draw_rectangles_body_appends by (unfold index; simpl; tauto).
  rewrite <- !app_assoc. reflexivity.
Qed.

End RendererFacts.

(** ** Claims on the frame renderer *)

Section RendererClaims.
Import Renderer.

Lemma column_length (center : Z * Z) (n width height i : Z) :
  activity_level n ->
  List.length (column center n width height i)
  = Z.to_nat (column_count n i).
Proof.
  intros Hn. unfold column. apply draw_column_length.
  assert (Hodd : forall k, Z.odd (n - 2 * k) = Z.odd n).
  { intros k. replace (n - 2 * k)%Z with (n + 2 * (- k))%Z by lia.
    rewrite Z.add_comm, Z.mul_comm.
    rewrite Z.odd_add, Z.odd_mul. simpl.
    now rewrite andb_false_r. }
  unfold column_count.
  destruct Hn as [-> | [Hpos Ho]].
  - left. destruct (i =? 0)%Z; [ lia | ].
    destruct (is_in i [-1; 1]%Z); lia.
  - right. destruct (i =? 0)%Z; [ exact Ho | ].
    destruct (is_in i [-1; 1]%Z).
    + rewrite <- Ho. apply (Hodd 1%Z).
    + rewrite <- Ho. apply (Hodd 2%Z).
Qed.

(** C9, as amended.  For every activity level [n] the renderer adds five
    columns to the frame, from left to right, with [n] rectangles in the
    center column, [n - 2] in each of the two adjacent columns and [n - 4]
    in each of the two outer columns, a column whose count is 0 or
    negative drawing nothing.  So the counts satisfy
    outer <= adjacent <= center for every level, and for levels below 3
    the adjacent and outer columns draw no rectangle. *)
Theorem C9_column_counts (img : image) (center : Z * Z)
        (n width height : Z) :
  activity_level n ->
  drawn (draw_rectangles img center n width height)
  = drawn img
    ++ column center n width height (-2)
    ++ column center n width height (-1)
    ++ column center n width height 0
    ++ column center n width height 1
    ++ column center n width height 2
  /\ List.length (column center n width height 0) = Z.to_nat n
  /\ List.length (column center n width height (-1)) = Z.to_nat (n - 2)
  /\ List.length (column center n width height 1) = Z.to_nat (n - 2)
  /\ List.length (column center n width height (-2)) = Z.to_nat (n - 4)
  /\ List.length (column center n width height 2) = Z.to_nat (n - 4)
  /\ (List.length (column center n width height 2)
      <= List.length (column center n width height 1)
      <= List.length (column center n width height 0))%nat
  /\ ((n < 3)%Z ->
      List.length (column center n width height 1) = 0%nat
      /\ List.length (column center n width height (-1)) = 0%nat
      /\ List.length (column center n width height 2) = 0%nat
      /\ List.length (column center n width height (-2)) = 0%nat).
Proof.
  intros Hn.
  pose proof (column_length center n width height 0 Hn) as H0.
  pose proof (column_length center n width height (-1) Hn) as Hm1.
  pose proof (column_length center n width height 1 Hn) as H1.
  pose proof (column_length center n width height (-2) Hn) as Hm2.
  pose proof (column_length center n width height 2 Hn) as H2.
  cbn [column_count Z.eqb is_in existsb orb Pos.eqb] in H0, Hm1, H1, Hm2, H2.
  split; [ apply draw_rectangles_columns | ].
  repeat (split; [ assumption | ]).
  split; [ lia | ].
  intros Hlt. lia.
Qed.

Lemma C9_column_counts_witness :
  drawn (draw_rectangles (mkImage 1920 1080 []) (960, 690)%Z 5 20 6)
  = drawn (mkImage 1920 1080 [])
    ++ column (960, 690)%Z 5 20 6 (-2)
    ++ column (960, 690)%Z 5 20 6 (-1)
    ++ column (960, 690)%Z 5 20 6 0
    ++ column (960, 690)%Z 5 20 6 1
    ++ column (960, 690)%Z 5 20 6 2
  /\ List.length (column (960, 690)%Z 5 20 6 0) = Z.to_nat 5
  /\ List.length (column (960, 690)%Z 5 20 6 (-1)) = Z.to_nat (5 - 2)
  /\ List.length (column (960, 690)%Z 5 20 6 1) = Z.to_nat (5 - 2)
  /\ List.length (column (960, 690)%Z 5 20 6 (-2)) = Z.to_nat (5 - 4)
  /\ List.length (column (960, 690)%Z 5 20 6 2) = Z.to_nat (5 - 4)
  /\ (List.length (column (960, 690)%Z 5 20 6 2)
      <= List.length (column (960, 690)%Z 5 20 6 1)
      <= List.length (column (960, 690)%Z 5 20 6 0))%nat
  /\ ((5 < 3)%Z ->
      List.length (column (960, 690)%Z 5 20 6 1) = 0%nat
      /\ List.length (column (960, 690)%Z 5 20 6 (-1)) = 0%nat
      /\ List.length (column (960, 690)%Z 5 20 6 2) = 0%nat
      /\ List.length (column (960, 690)%Z 5 20 6 (-2)) = 0%nat).
Proof.
  apply (C9_column_counts (mkImage 1920 1080 []) (960, 690)%Z 5 20 6).
  right. split; [ lia | reflexivity ].
Defined.

(** C9, as stated, fails at the level 3, which is below 4: each of the
    two adjacent columns draws one rectangle (the outer ones none), so
    the frame gets 3 + 1 + 1 rectangles. *)
Lemma C9_counterexample_level_3 :
  activity_level 3
  /\ (3 < 4)%Z
  /\ List.length (column (960, 690)%Z 3 20 6 (-1)) = 1%nat
  /\ List.length (column (960, 690)%Z 3 20 6 1) = 1%nat
  /\ List.length (column (960, 690)%Z 3 20 6 (-2)) = 0%nat
  /\ List.length (column (960, 690)%Z 3 20 6 2) = 0%nat
  /\ List.length
       (drawn (draw_rectangles (mkImage 1920 1080 []) (960, 690)%Z 3 20 6))
     = 5%nat.
Proof.
  split; [ right; split; [ lia | reflexivity ] | ].
  split; [ lia | ].
  repeat split; vm_compute; reflexivity.
Qed.

End RendererClaims.


(** ** Rational energies as numpy scalars *)

(** The quantizer does the same on a numpy scalar that holds a rational
    number as on that rational number, so that what is proved of it on
    rational energies holds of it on such scalars. *)
Section RationalScalars.
Import Quantizer.

Lemma Q2R_inject_Z (z : Z) : Q2R (inject_Z z) = IZR z.
Proof.
  unfold Q2R, inject_Z. simpl. rewrite Rinv_1. apply Rmult_1_r.
Qed.

Lemma Int_part_Q2R (x : Q) : Int_part (Q2R x) = Qfloor x.
Proof.
  symmetry. apply Int_part_spec. split.
  - pose proof (Qlt_Rlt _ _ (Qlt_floor x)) as Hlt.
    rewrite Q2R_inject_Z, plus_IZR in Hlt. Lra.lra.
  - pose proof (Qle_Rle _ _ (Qfloor_le x)) as Hle.
    now rewrite Q2R_inject_Z in Hle.
Qed.

Lemma Q2R_half : Q2R (1 # 2) = (1 / 2)%R.
Proof. unfold Q2R. simpl. Lra.lra. Qed.

Lemma round_half_even_R_Q2R (x : Q) :
  round_half_even_R (Q2R x) = round_half_even x.
Proof.
  unfold round_half_even_R, round_half_even. rewrite Int_part_Q2R.
  assert (Hd : (Q2R x - IZR (Qfloor x))%R = Q2R (x - inject_Z (Qfloor x))).
  { now rewrite Q2R_minus, Q2R_inject_Z. }
  rewrite Hd, <- Q2R_half.
  destruct (Qcompare (x - inject_Z (Qfloor x)) (1 # 2)) eqn:E.
  - apply Qeq_alt in E. apply Qeq_eqR in E.
    destruct (Rlt_dec _ _) as [Hlt | _]; [ Lra.lra | ].
    destruct (Rlt_dec _ _) as [Hlt | _]; [ Lra.lra | reflexivity ].
  - apply Qlt_alt in E. apply Qlt_Rlt in E.
    destruct (Rlt_dec _ _) as [_ | Hn]; [ reflexivity | contradiction ].
  - apply Qgt_alt in E. apply Qlt_Rlt in E.
    destruct (Rlt_dec _ _) as [Hlt | _]; [ Lra.lra | ].
    destruct (Rlt_dec _ _) as [_ | Hn]; [ reflexivity | contradiction ].
Qed.

Lemma round_div_scalar (e t : Q) :
  round_div (Num (Q2R e)) t = round_div e t.
Proof.
  unfold round_div, Energy_float64, Energy_Q, Numpy.divide.
  destruct (Qeq_bool t 0) eqn:Et.
  - apply Qeq_bool_eq, Qeq_eqR in Et. rewrite RMicromega.Q2R_0 in Et.
    destruct (Req_dec_T (Q2R t) 0) as [_ | N]; [ | contradiction ].
    destruct (Qeq_bool e 0) eqn:Ee.
    + apply Qeq_bool_eq, Qeq_eqR in Ee. rewrite RMicromega.Q2R_0 in Ee.
      destruct (Req_dec_T (Q2R e) 0) as [_ | N]; [ reflexivity | contradiction ].
    + destruct (Req_dec_T (Q2R e) 0) as [E0 | _].
      * rewrite <- RMicromega.Q2R_0 in E0. apply eqR_Qeq in E0.
        apply Qeq_bool_iff in E0. congruence.
      * destruct (Rlt_dec 0 (Q2R e)); reflexivity.
  - assert (Hn : ~ t == 0).
    { intros E. apply Qeq_bool_iff in E. congruence. }
    destruct (Req_dec_T (Q2R t) 0) as [E0 | _].
    + rewrite <- RMicromega.Q2R_0 in E0. apply eqR_Qeq in E0. contradiction.
    + rewrite <- Q2R_div by exact Hn. now rewrite round_half_even_R_Q2R.
Qed.

Lemma while_loop_scalar (e : Q) (thresholds : list Q) :
  forall fuel counter division,
    while_loop fuel (Num (Q2R e)) thresholds counter division
    = while_loop fuel e thresholds counter division.
Proof.
  induction fuel as [| fuel IH]; intros counter division; simpl.
  - reflexivity.
  - destruct (division =? 1)%Z; [ reflexivity | ].
    destruct (nth_error thresholds counter) as [t |]; [ | reflexivity ].
    rewrite round_div_scalar.
    destruct (round_div e t) as [x | ratio]; [ reflexivity | ].
    destruct (ratio =? 0)%Z; apply IH.
Qed.

(** The quantizer on an array of rational-valued scalars. *)
Lemma get_number_of_rectangles_scalar (es : list Q) (FPS : Z) :
  get_number_of_rectangles (map (fun e => Num (Q2R e)) es) FPS
  = get_number_of_rectangles es FPS.
Proof.
  unfold get_number_of_rectangles.
  destruct (energy_thresholds FPS) as [x | thresholds]; [ reflexivity | ].
  induction es as [| e es IH]; simpl; [ reflexivity | ].
  unfold chunk_level, counter_of. rewrite while_loop_scalar.
  fold (counter_of (loop_fuel thresholds) e thresholds).
  fold (chunk_level thresholds e).
  destruct (chunk_level thresholds e) as [[x | l] |]; try reflexivity.
  now rewrite IH.
Qed.

End RationalScalars.


(** ** The exact model against binary64 arithmetic *)

Section Binary64Examples.
Import Quantizer.

(** The ratios at which the examples of the specification meet a tie are
    exact in binary64. *)
Lemma binary64_ties :
  Binary64.to_Q (PrimFloat.div (Binary64.of_decimal (1 # 20))
                               (Binary64.of_decimal (1 # 10)))
  = Some (4503599627370496 # 9007199254740992)
  /\ Binary64.to_Q (PrimFloat.div (Binary64.of_decimal (2 # 5))
                                  (Binary64.of_decimal (8 # 10)))
     = Some (4503599627370496 # 9007199254740992)
  /\ (4503599627370496 # 9007199254740992 == 1 # 2)%Q.
Proof. repeat split; vm_compute; reflexivity. Qed.

(** On the energies used in the statements above the quantizer returns the
    same on binary64 numbers as on rational numbers. *)
Lemma binary64_agrees_fps_10 :
  get_number_of_rectangles
    (map Binary64.of_decimal [1 # 20; 2 # 5; 9 # 10; 1 # 1; 2 # 1; 10 # 1]) 10
  = Some (ok [0; 3; 5; 5; 7; 19]%Z)
  /\ get_number_of_rectangles
       [1 # 20; 2 # 5; 9 # 10; 1 # 1; 2 # 1; 10 # 1] 10
     = Some (ok [0; 3; 5; 5; 7; 19]%Z)
  /\ get_number_of_rectangles [Binary64.of_decimal (15 # 1)] 10
     = Some (raise IndexError).
Proof. repeat split; vm_compute; reflexivity. Qed.

Lemma binary64_agrees_fps_15 :
  get_number_of_rectangles
    (map Binary64.of_decimal [1 # 20; 2 # 5; 9 # 10; 1 # 1; 2 # 1; 10 # 1]) 15
  = get_number_of_rectangles
      [1 # 20; 2 # 5; 9 # 10; 1 # 1; 2 # 1; 10 # 1] 15.
Proof. vm_compute. reflexivity. Qed.

End Binary64Examples.



(** * Further properties *)

(** ** Comparisons of rational numbers *)

Lemma Qleb_spec (x y : Q) : reflect (x <= y)%Q (Qle_bool x y).
Proof.
  destruct (Qle_bool x y) eqn:E; constructor.
  - now apply Qle_bool_iff.
  - intros Hle. apply Qle_bool_iff in Hle. congruence.
Qed.

(** ** The levels the quantizer can return *)

Section QuantizerLevels.
Context {num : Type} `{Energy num}.
Import Quantizer QuantizerRule.

Lemma rule_level_odd_from_3 (c : nat) :
  (c <= 11)%nat -> odd_from_3 (rule_level c).
Proof.
  intros Hc. destruct c as [| c]; [ left; reflexivity | right ].
  split.
  - unfold rule_level. rewrite Z.add_comm, Z.mul_comm. apply Z.odd_add_mul_2.
  - unfold rule_level. lia.
Qed.

(** X3.  Whatever the numeric type of the energies, when the quantizer
    returns it returns one level per energy, and every level is 0 or an odd
    number from 3 to 23: the level 1 is never produced. *)
Theorem X3_levels_never_1 (es : list num) (FPS : Z) (levels : list Z) :
  get_number_of_rectangles es FPS = Some (ok levels) ->
  List.length levels = List.length es /\ Forall odd_from_3 levels.
Proof.
  unfold get_number_of_rectangles.
  destruct (energy_thresholds FPS) as [x | thresholds] eqn:Hth;
    [ discriminate | ].
  pose proof (energy_thresholds_length _ _ Hth) as Hlen.
  revert levels. induction es as [| e es IH]; intros levels Hl; simpl in Hl.
  - inversion Hl; subst. split; [ reflexivity | constructor ].
  - rewrite chunk_level_rule in Hl by lia.
    destruct (rule_walk e thresholds 0) as [x | c] eqn:Hw; simpl in Hl;
      [ discriminate | ].
    destruct (levels_of thresholds es) as [[x | ls] |]; try discriminate.
    inversion Hl; subst levels; clear Hl.
    destruct (IH ls eq_refl) as [Hn Hall].
    split; [ simpl; now rewrite Hn | ].
    constructor; [ | exact Hall ].
    apply rule_level_odd_from_3. apply rule_walk_bounds in Hw. lia.
Qed.

End QuantizerLevels.

Lemma X3_levels_never_1_witness :
  List.length [0; 3; 23]%Z = List.length [1 # 20; 2 # 5; 13 # 1]
  /\ Forall odd_from_3 [0; 3; 23]%Z.
Proof.
  apply (X3_levels_never_1 [1 # 20; 2 # 5; 13 # 1] 10 [0; 3; 23]%Z).
  reflexivity.
Defined.

(** ** The walk on real energies *)

Section WalkR.
Import Quantizer QuantizerRule.
Local Open Scope R_scope.

Lemma round_half_even_R_0 (x : R) :
  0 <= x -> x <= 1 / 2 -> round_half_even_R x = 0%Z.
Proof.
  intros H0 H1. unfold round_half_even_R.
  assert (Hf : Int_part x = 0%Z).
  { symmetry. apply Int_part_spec. simpl. Lra.lra. }
  rewrite Hf. simpl.
  destruct (Rlt_dec (x - 0) (1 / 2)); [ reflexivity | ].
  destruct (Rlt_dec (1 / 2) (x - 0)); [ Lra.lra | reflexivity ].
Qed.

Lemma round_half_even_R_1 (x : R) :
  1 / 2 < x -> x < 3 / 2 -> round_half_even_R x = 1%Z.
Proof.
  intros H0 H1. unfold round_half_even_R.
  destruct (Rlt_dec x 1) as [Hlt | Hge].
  - assert (Hf : Int_part x = 0%Z).
    { symmetry. apply Int_part_spec. simpl. Lra.lra. }
    rewrite Hf. simpl.
    destruct (Rlt_dec (x - 0) (1 / 2)); [ Lra.lra | ].
    destruct (Rlt_dec (1 / 2) (x - 0)); [ reflexivity | Lra.lra ].
  - assert (Hf : Int_part x = 1%Z).
    { symmetry. apply Int_part_spec. simpl. Lra.lra. }
    rewrite Hf. simpl.
    destruct (Rlt_dec (x - 1) (1 / 2)); [ reflexivity | Lra.lra ].
Qed.

Lemma round_half_even_R_ge_2 (x : R) :
  3 / 2 <= x -> (2 <= round_half_even_R x)%Z.
Proof.
  intros H. unfold round_half_even_R.
  destruct (base_Int_part x) as [Hlo Hhi].
  assert (H1 : (1 <= Int_part x)%Z).
  { assert (Hz : (0 < Int_part x)%Z); [ apply lt_IZR; Lra.lra | lia ]. }
  destruct (Z.eq_dec (Int_part x) 1) as [E1 | N1].
  - rewrite E1 in *.
    destruct (Rlt_dec (x - 1) (1 / 2)); [ Lra.lra | ].
    destruct (Rlt_dec (1 / 2) (x - 1)); simpl; lia.
  - destruct (Rlt_dec _ _); [ lia | ].
    destruct (Rlt_dec _ _); [ lia | ].
    destruct (Z.even _); lia.
Qed.

Lemma Q2R_pos (t : Q) : (0 < t)%Q -> 0 < Q2R t.
Proof.
  intros Ht. apply Qlt_Rlt in Ht. now rewrite RMicromega.Q2R_0 in Ht.
Qed.

Lemma round_div_Num (r : R) (t : Q) :
  (0 < t)%Q -> round_div (Num r) t = ok (round_half_even_R (r / Q2R t)).
Proof.
  intros Ht. apply Q2R_pos in Ht.
  unfold round_div, Energy_float64, Numpy.divide.
  destruct (Req_dec_T (Q2R t) 0); [ Lra.lra | reflexivity ].
Qed.

(** The outcome at the head of the table, for a non-negative real energy. *)
Lemma rule_walk_head_R (r : R) (t : Q) (rest : list Q) (counter : nat) :
  (0 < t)%Q -> 0 <= r ->
  (2 * r <= Q2R t /\ rule_walk (Num r) (t :: rest) counter = ok counter)
  \/ (Q2R t < 2 * r < 3 * Q2R t
      /\ rule_walk (Num r) (t :: rest) counter = ok (S counter))
  \/ (3 * Q2R t <= 2 * r
      /\ rule_walk (Num r) (t :: rest) counter
         = rule_walk (Num r) rest (S counter)).
Proof.
  intros Ht Hr. pose proof (Q2R_pos t Ht) as Hp.
  simpl. rewrite (round_div_Num r t Ht). simpl.
  assert (Hdiv : forall a, (a * Q2R t <= r <-> a <= r / Q2R t)
                           /\ (r <= a * Q2R t <-> r / Q2R t <= a)).
  { intros a. unfold Rdiv. split; split; intros Hx.
    - apply Rmult_le_reg_r with (Q2R t); [ exact Hp | ].
      rewrite Rmult_assoc, Rinv_l by Lra.lra. Lra.lra.
    - apply Rmult_le_compat_r with (r := Q2R t) in Hx; [ | Lra.lra ].
      rewrite Rmult_assoc, Rinv_l in Hx by Lra.lra. Lra.lra.
    - apply Rmult_le_reg_r with (Q2R t); [ exact Hp | ].
      rewrite Rmult_assoc, Rinv_l by Lra.lra. Lra.lra.
    - apply Rmult_le_compat_r with (r := Q2R t) in Hx; [ | Lra.lra ].
      rewrite Rmult_assoc, Rinv_l in Hx by Lra.lra. Lra.lra. }
  destruct (Rle_dec (2 * r) (Q2R t)) as [Hle | Hlo].
  - left. split; [ exact Hle | ].
    rewrite round_half_even_R_0; [ reflexivity | | ].
    + apply (Hdiv 0). Lra.lra.
    + apply (Hdiv (1 / 2)). Lra.lra.
  - destruct (Rle_dec (3 * Q2R t) (2 * r)) as [Hge | Hhi].
    + right; right. split; [ exact Hge | ].
      assert (H2 : (2 <= round_half_even_R (r / Q2R t))%Z).
      { apply round_half_even_R_ge_2. apply (Hdiv (3 / 2)). Lra.lra. }
      destruct (round_half_even_R (r / Q2R t) =? 0)%Z eqn:E0; [ lia | ].
      destruct (round_half_even_R (r / Q2R t) =? 1)%Z eqn:E1; [ lia | ].
      reflexivity.
    + right; left. split; [ Lra.lra | ].
      rewrite round_half_even_R_1; [ reflexivity | | ].
      * apply Rnot_le_lt. intros Hx. apply (Hdiv (1 / 2)) in Hx. Lra.lra.
      * apply Rnot_le_lt. intros Hx. apply (Hdiv (3 / 2)) in Hx. Lra.lra.
Qed.

End WalkR.

(** ** Rectangles and columns *)

Section RendererGeometry.
Import Renderer Layout.
Local Open Scope Q_scope.

Lemma half_bounds (a : Z) :
  inject_Z (a / 2) <= inject_Z a / 2 /\ inject_Z a / 2 < inject_Z (a / 2 + 1).
Proof.
  assert (H1 : (2 * (a / 2) <= a)%Z) by (Z.div_mod_to_equations; lia).
  assert (H2 : (a < 2 * (a / 2 + 1))%Z) by (Z.div_mod_to_equations; lia).
  rewrite Zle_Qle in H1. rewrite Zlt_Qlt in H2.
  rewrite inject_Z_mult in H1, H2.
  change (inject_Z 2) with 2 in H1, H2.
  unfold Qdiv. change (/ 2) with (1 # 2).
  split; lra.
Qed.

Lemma Qfloor_half (a : Z) (x : Q) :
  x == inject_Z a / 2 -> Qfloor x = (a / 2)%Z.
Proof.
  intros Hx. destruct (half_bounds a) as [Hlo Hhi].
  apply Qfloor_unique; rewrite Hx; assumption.
Qed.

Lemma Qceiling_half (a : Z) (x : Q) :
  x == inject_Z a / 2 -> Qceiling x = (- ((- a) / 2))%Z.
Proof.
  intros Hx. unfold Qceiling. f_equal. apply Qfloor_half.
  rewrite Hx, inject_Z_opp. field.
Qed.

Lemma int_half (a : Z) (x : Q) :
  (0 <= a)%Z -> x == inject_Z a / 2 -> int x = (a / 2)%Z.
Proof.
  intros Ha Hx. unfold int.
  destruct (Qleb_spec 0 x) as [_ | Hn].
  - now apply Qfloor_half.
  - exfalso. apply Hn. rewrite Hx.
    rewrite Zle_Qle in Ha. change (inject_Z 0) with 0 in Ha.
    unfold Qdiv. change (/ 2) with (1 # 2). lra.
Qed.

(** X4.  For a rectangle that lies at non-negative coordinates
    ([width <= 2 * x] and [height <= 2 * y] for the center [(x, y)]),
    [rect_coords] returns the corners [((2x - width) / 2, (2y - height) / 2)]
    and [((2x + width) / 2, (2y + height) / 2)], rounded down: the second
    corner is exactly [width] to the right of and [height] below the
    first. *)
Theorem X4_rect_coords_extent (x y width height : Z) :
  (0 <= width <= 2 * x)%Z -> (0 <= height <= 2 * y)%Z ->
  rect_coords (x, y) width height
  = ((((2 * x - width) / 2)%Z, ((2 * y - height) / 2)%Z),
     (((2 * x + width) / 2)%Z, ((2 * y + height) / 2)%Z))
  /\ (fst (snd (rect_coords (x, y) width height))
      - fst (fst (rect_coords (x, y) width height)) = width)%Z
  /\ (snd (snd (rect_coords (x, y) width height))
      - snd (fst (rect_coords (x, y) width height)) = height)%Z.
Proof.
  intros Hw Hh.
  assert (E : rect_coords (x, y) width height
              = ((((2 * x - width) / 2)%Z, ((2 * y - height) / 2)%Z),
                 (((2 * x + width) / 2)%Z, ((2 * y + height) / 2)%Z))).
  { unfold rect_coords. cbn [fst snd].
    rewrite (int_half (2 * x - width)), (int_half (2 * y - height)),
      (int_half (2 * x + width)), (int_half (2 * y + height));
      try lia; try reflexivity;
      unfold Z.sub;
      rewrite ?inject_Z_plus, ?inject_Z_opp, ?inject_Z_mult;
      change (inject_Z 2) with 2; field. }
  rewrite E. cbn [fst snd].
  split; [ reflexivity | ].
  split; Z.div_mod_to_equations; lia.
Qed.

Lemma X4_rect_coords_extent_witness :
  rect_coords (960, 690)%Z 20 6
  = ((((2 * 960 - 20) / 2)%Z, ((2 * 690 - 6) / 2)%Z),
     (((2 * 960 + 20) / 2)%Z, ((2 * 690 + 6) / 2)%Z))
  /\ (fst (snd (rect_coords (960, 690)%Z 20 6))
      - fst (fst (rect_coords (960, 690)%Z 20 6)) = 20)%Z
  /\ (snd (snd (rect_coords (960, 690)%Z 20 6))
      - snd (fst (rect_coords (960, 690)%Z 20 6)) = 6)%Z.
Proof.
  apply (X4_rect_coords_extent 960 690 20 6); lia.
Defined.

End RendererGeometry.

Section ColumnLayout.
Import Renderer Layout.

Lemma range_in (a b i : Z) : In i (range a b) -> (a <= i < b)%Z.
Proof.
  unfold range. rewrite in_map_iff. intros (k & <- & Hk).
  apply in_seq in Hk. lia.
Qed.

Lemma seq_from (n s : nat) :
  seq s n = map (fun k => (s + k)%nat) (seq 0 n).
Proof.
  revert s. induction n as [| n IH]; intros s; simpl; [ reflexivity | ].
  f_equal; [ lia | ].
  rewrite (IH (S s)), (IH 1%nat), map_map.
  apply map_ext. intros k. lia.
Qed.

Lemma range_app (a b c : Z) :
  (a <= b <= c)%Z -> range a c = range a b ++ range b c.
Proof.
  intros Habc. unfold range.
  replace (Z.to_nat (c - a)) with (Z.to_nat (b - a) + Z.to_nat (c - b))%nat
    by lia.
  rewrite seq_app, map_app. f_equal.
  rewrite (seq_from (Z.to_nat (c - b)) (0 + Z.to_nat (b - a))), map_map.
  apply map_ext. intros k. lia.
Qed.

Lemma range_shift {A : Type} (f : Z -> A) (k a b : Z) :
  map (fun i => f (i - k)%Z) (range (a + k) (b + k)) = map f (range a b).
Proof.
  unfold range. rewrite !map_map.
  replace (b + k - (a + k))%Z with (b - a)%Z by lia.
  apply map_ext. intros n. f_equal. lia.
Qed.

Lemma flat_map_singletons {A B : Type} (f : A -> list B) (g : A -> B)
      (l : list A) :
  (forall a, In a l -> f a = [g a]) -> flat_map f l = map g l.
Proof.
  induction l as [| a l IH]; intros Hf; simpl; [ reflexivity | ].
  rewrite Hf by (now left). simpl. f_equal.
  apply IH. intros b Hb. apply Hf. now right.
Qed.

Lemma flat_map_nothing {A B : Type} (f : A -> list B) (l : list A) :
  (forall a, In a l -> f a = []) -> flat_map f l = [].
Proof.
  induction l as [| a l IH]; intros Hf; simpl; [ reflexivity | ].
  rewrite Hf by (now left). simpl.
  apply IH. intros b Hb. apply Hf. now right.
Qed.

(** The three kinds of index of the loop of [draw_column]. *)
Lemma body_center (center : Z * Z) (count width height : Z) :
  (1 <= count)%Z ->
  body_rectangles center count width height 0
  = [rect_at center width height red].
Proof.
  intros Hc. unfold body_rectangles, draw_column_body.
  rewrite below_half, above_half.
  destruct (Z.ltb_spec count (2 * 0)); [ lia | ]. reflexivity.
Qed.

Lemma body_below (center : Z * Z) (count width height i : Z) :
  (0 < i)%Z -> (2 * i < count)%Z ->
  body_rectangles center count width height i
  = [below center width height i].
Proof.
  intros Hi Hlt. unfold body_rectangles, draw_column_body.
  rewrite below_half, above_half.
  destruct (Z.eqb_spec i 0); [ lia | ].
  destruct (Z.ltb_spec 0 i); [ | lia ].
  destruct (Z.ltb_spec (2 * i) count); [ | lia ].
  destruct (Z.ltb_spec count (2 * i)); [ lia | ].
  reflexivity.
Qed.

Lemma body_middle (center : Z * Z) (count width height i : Z) :
  (0 < i)%Z -> (2 * i = count)%Z ->
  body_rectangles center count width height i = [].
Proof.
  intros Hi Hlt. unfold body_rectangles, draw_column_body.
  rewrite below_half, above_half.
  destruct (Z.eqb_spec i 0); [ lia | ].
  destruct (Z.ltb_spec 0 i); [ | lia ].
  destruct (Z.ltb_spec (2 * i) count); [ lia | ].
  destruct (Z.ltb_spec count (2 * i)); [ lia | ].
  reflexivity.
Qed.

Lemma fmod_half (count i : Z) :
  (count < 2 * i < 2 * count)%Z ->
  (fmod (inject_Z i) (inject_Z count / 2)
   == inject_Z (2 * i - count) / 2)%Q.
Proof.
  intros [Hlo Hhi].
  rewrite Zlt_Qlt, inject_Z_mult in Hlo.
  rewrite Zlt_Qlt, !inject_Z_mult in Hhi.
  change (inject_Z 2) with 2%Q in Hlo, Hhi.
  assert (Hpos : (0 < inject_Z count / 2)%Q).
  { unfold Qdiv. change (/ 2)%Q with (1 # 2)%Q. lra. }
  assert (Hf : Qfloor (inject_Z i / (inject_Z count / 2)) = 1%Z).
  { apply Qfloor_unique.
    - apply Qle_shift_div_l; [ exact Hpos | ].
      change (inject_Z 1) with 1%Q.
      unfold Qdiv. change (/ 2)%Q with (1 # 2)%Q. lra.
    - apply Qlt_shift_div_r; [ exact Hpos | ].
      change (inject_Z (1 + 1)) with 2%Q.
      unfold Qdiv. change (/ 2)%Q with (1 # 2)%Q. lra. }
  unfold fmod. rewrite Hf. unfold Z.sub.
  rewrite inject_Z_plus, inject_Z_opp, inject_Z_mult.
  change (inject_Z 2) with 2%Q. change (inject_Z 1) with 1%Q. field.
Qed.

Lemma body_above (center : Z * Z) (count width height i : Z) :
  (count < 2 * i)%Z -> (i < count)%Z ->
  body_rectangles center count width height i
  = [above center width height (i - count / 2)].
Proof.
  intros Hlo Hhi. unfold body_rectangles, draw_column_body.
  rewrite below_half, above_half.
  assert (Hi : (0 < i)%Z) by lia.
  destruct (Z.eqb_spec i 0); [ lia | ].
  destruct (Z.ltb_spec 0 i); [ | lia ].
  destruct (Z.ltb_spec (2 * i) count); [ lia | ].
  destruct (Z.ltb_spec count (2 * i)); [ | lia ].
  cbn [andb]. unfold cv2_rectangle, above, rect_at. cbn [drawn app].
  rewrite (Qfloor_half count) by reflexivity.
  rewrite (Qceiling_half (2 * i - count)) by (apply fmod_half; lia).
  replace (- (- (2 * i - count) / 2))%Z with (i - count / 2)%Z
    by (Z.div_mod_to_equations; lia).
  reflexivity.
Qed.

(** The rectangles of a column of [count >= 1] rectangles. *)
Lemma column_rectangles (center : Z * Z) (count width height : Z) :
  (1 <= count)%Z ->
  flat_map (body_rectangles center count width height) (range 0 count)
  = symmetric_column center ((count - 1) / 2) width height.
Proof.
  intros Hc.
  set (m := ((count - 1) / 2)%Z). set (k := (count / 2)%Z).
  assert (Hm : (0 <= m /\ 2 * m + 1 <= count <= 2 * m + 2)%Z)
    by (unfold m; Z.div_mod_to_equations; lia).
  assert (Hk : (2 * k <= count <= 2 * k + 1)%Z)
    by (unfold k; Z.div_mod_to_equations; lia).
  rewrite (range_app 0 1 count) by lia.
  rewrite (range_app 1 (m + 1) count) by lia.
  rewrite (range_app (m + 1) (k + 1) count) by lia.
  rewrite !flat_map_app.
  change (range 0 1) with [0%Z]. cbn [flat_map].
  rewrite body_center by lia.
  rewrite (flat_map_singletons _ (below center width height) (range 1 (m + 1))).
  2:{ intros i Hi. apply range_in in Hi. apply body_below; lia. }
  rewrite (flat_map_nothing _ (range (m + 1) (k + 1))).
  2:{ intros i Hi. apply range_in in Hi. apply body_middle; lia. }
  rewrite (flat_map_singletons
             _ (fun i => above center width height (i - k)) (range (k + 1) count)).
  2:{ intros i Hi. apply range_in in Hi. apply body_above; lia. }
  replace (range (k + 1) count) with (range (1 + k) (m + 1 + k))
    by (f_equal; lia).
  rewrite (range_shift (above center width height) k 1 (m + 1)).
  unfold symmetric_column. simpl. reflexivity.
Qed.

(** X5.  A column of [count >= 1] rectangles consists of the rectangle on
    the anchor, then [m] rectangles below it and [m] above it, for
    [m = (count - 1) / 2] rounded down; the [j]-th rectangle on either side
    lies [j * (height + 5)] away from the anchor and has the colour
    [150 + 10 * j].  So the column is symmetric about its anchor, and an
    even count draws what the count below it draws. *)
Theorem X5_column_is_symmetric (img : image) (center : Z * Z)
        (count width height : Z) :
  (1 <= count)%Z ->
  drawn (draw_column img center count width height)
  = drawn img ++ symmetric_column center ((count - 1) / 2) width height.
Proof.
  intros Hc. unfold draw_column. rewrite fold_body_appends.
  now rewrite column_rectangles.
Qed.

Lemma X5_column_is_symmetric_witness :
  drawn (draw_column (mkImage 1920 1080 []) (960, 690)%Z 4 20 6)
  = drawn (mkImage 1920 1080 [])
    ++ symmetric_column (960, 690)%Z ((4 - 1) / 2) 20 6.
Proof.
  apply (X5_column_is_symmetric (mkImage 1920 1080 []) (960, 690)%Z 4 20 6).
  lia.
Defined.

End ColumnLayout.

Section ColumnCorollaries.
Import Renderer Layout.

Lemma draw_column_nothing (img : image) (center : Z * Z)
      (count width height : Z) :
  (count <= 0)%Z -> draw_column img center count width height = img.
Proof.
  intros Hc. unfold draw_column, range.
  replace (Z.to_nat (count - 0)) with 0%nat by lia. reflexivity.
Qed.

Lemma column_drawn (img : image) (center : Z * Z) (count width height : Z) :
  (1 <= count)%Z ->
  drawn (draw_column img center count width height)
  = drawn img ++ symmetric_column center ((count - 1) / 2) width height.
Proof.
  intros Hc. unfold draw_column. rewrite fold_body_appends.
  now rewrite column_rectangles.
Qed.

(** X6.  An even count of at least 2 draws one rectangle less than asked
    for: [draw_column] adds with the count [2 * m] the same rectangles as
    with the count [2 * m - 1], which are [2 * m - 1] rectangles. *)
Theorem X6_even_count_draws_one_less (img : image) (center : Z * Z)
        (m width height : Z) :
  (1 <= m)%Z ->
  drawn (draw_column img center (2 * m) width height)
  = drawn (draw_column img center (2 * m - 1) width height)
  /\ List.length (drawn (draw_column img center (2 * m) width height))
     = (List.length (drawn img) + Z.to_nat (2 * m - 1))%nat.
Proof.
  intros Hm.
  rewrite (column_drawn img center (2 * m)) by lia.
  rewrite (column_drawn img center (2 * m - 1)) by lia.
  replace ((2 * m - 1 - 1) / 2)%Z with ((2 * m - 1) / 2)%Z
    by (Z.div_mod_to_equations; lia).
  split; [ reflexivity | ].
  replace ((2 * m - 1) / 2)%Z with (m - 1)%Z
    by (Z.div_mod_to_equations; lia).
  unfold symmetric_column. rewrite length_app. cbn [List.length].
  rewrite length_app, !length_map. unfold range.
  rewrite length_map, length_seq. lia.
Qed.

Lemma X6_even_count_draws_one_less_witness :
  drawn (draw_column (mkImage 1920 1080 []) (960, 690)%Z (2 * 2) 20 6)
  = drawn (draw_column (mkImage 1920 1080 []) (960, 690)%Z (2 * 2 - 1) 20 6)
  /\ List.length
       (drawn (draw_column (mkImage 1920 1080 []) (960, 690)%Z (2 * 2) 20 6))
     = (List.length (drawn (mkImage 1920 1080 [])) + Z.to_nat (2 * 2 - 1))%nat.
Proof.
  apply (X6_even_count_draws_one_less
           (mkImage 1920 1080 []) (960, 690)%Z 2 20 6).
  lia.
Defined.

Lemma symmetric_column_shades (center : Z * Z) (m width height : Z) :
  (m <= 10)%Z ->
  Forall red_shade (symmetric_column center m width height).
Proof.
  intros Hm. unfold symmetric_column. constructor.
  - exists red. split; [ reflexivity | unfold red; lia ].
  - apply Forall_app. split; apply Forall_map, Forall_forall;
      intros j Hj; apply range_in in Hj;
      exists (red + 10 * j)%Z; (split; [ reflexivity | unfold red; lia ]).
Qed.

Lemma column_shades (img : image) (center : Z * Z) (count width height : Z) :
  (count <= 22)%Z ->
  Forall red_shade (drawn img) ->
  Forall red_shade (drawn (draw_column img center count width height)).
Proof.
  intros Hc Himg. destruct (Z_le_gt_dec count 0) as [H0 | H1].
  - now rewrite draw_column_nothing.
  - rewrite column_drawn by lia. apply Forall_app. split; [ exact Himg | ].
    apply symmetric_column_shades. Z.div_mod_to_equations; lia.
Qed.

(** X7.  For a count of at most 22 (the levels go up to 21) every rectangle
    that [draw_rectangles] puts on an empty frame is drawn in a colour
    [(0, 0, c)] with [150 <= c <= 250]: the red channel stays within 8
    bits and the two other channels are never used. *)
Theorem X7_colours_within_8_bits (w h : Z) (center : Z * Z)
        (count width height : Z) :
  (count <= 22)%Z ->
  Forall red_shade
         (drawn (draw_rectangles (mkImage w h []) center count width height)).
Proof.
  intros Hc. unfold draw_rectangles, index. cbn [fold_left].
  unfold draw_rectangles_body.
  cbn [Z.eqb is_in existsb orb Pos.eqb].
  repeat (apply column_shades; [ lia | ]).
  constructor.
Qed.

Lemma X7_colours_within_8_bits_witness :
  Forall red_shade
         (drawn (draw_rectangles (mkImage 1920 1080 []) (960, 690)%Z 21 20 6)).
Proof.
  apply (X7_colours_within_8_bits 1920 1080 (960, 690)%Z 21 20 6). lia.
Defined.

End ColumnCorollaries.

(** ** The frame sequencer *)

Section Sequencer.
Context `{Collaborators}.
Import Main.

Lemma write_frames_log (img : image) (center : Z * Z) (rect_w rect_h : Z)
      (levels : list Z) :
  forall log,
    write_frames img center rect_w rect_h levels log
    = Some (log ++ map (fun n => FrameWritten
                                   (Renderer.draw_rectangles
                                      img center n rect_w rect_h))
                       levels,
            ok tt).
Proof.
  induction levels as [| n levels IH]; intros log; simpl.
  - unfold Py.ret. now rewrite app_nil_r.
  - unfold Py.bind, Py.emit. rewrite IH. now rewrite <- app_assoc.
Qed.


(** X8.  With a background that can be read, [process_video] reads it,
    writes one frame per level, in the order of the levels, and releases
    the video.  Every frame is drawn on a fresh copy of the background, so
    a frame shows the rectangles of its own level only, whatever the levels
    before it; the frame rate has no part in the frames. *)
Theorem X8_one_frame_per_level (levels : list Z)
        (background_image video_file_name : String.string) (FPS w h : Z)
        (log : list event) :
  imread background_image = Some (w, h) ->
  process_video levels background_image video_file_name FPS log
  = Some (log ++ [ImageReading background_image]
              ++ map (fun n => FrameWritten
                                 (Renderer.draw_rectangles
                                    (mkImage w h [])
                                    (round_half_even (inject_Z w / 2),
                                     (round_half_even (inject_Z h / 2) + 150)%Z)
                                    n 20 6))
                     levels
              ++ [VideoReleased],
          ok tt).
Proof.
  intros Him. unfold process_video, Py.bind, Py.emit. rewrite Him.
  rewrite write_frames_log. now rewrite <- !app_assoc.
Qed.

End Sequencer.

Lemma X8_one_frame_per_level_witness :
  @Main.process_video Sample.sample_world [0; 3; 5]%Z
     Main.BACKGROUND_IMAGE Main.VIDEO_FILE_NAME 10 []
  = Some ([] ++ [ImageReading Main.BACKGROUND_IMAGE]
             ++ map (fun n => FrameWritten
                                (Renderer.draw_rectangles
                                   (mkImage 1920 1080 [])
                                   (round_half_even (inject_Z 1920 / 2),
                                    (round_half_even (inject_Z 1080 / 2)
                                     + 150)%Z)
                                   n 20 6))
                    [0; 3; 5]%Z
             ++ [VideoReleased],
          ok tt).
Proof.
  apply (@X8_one_frame_per_level Sample.sample_world [0; 3; 5]%Z
           Main.BACKGROUND_IMAGE Main.VIDEO_FILE_NAME 10 1920 1080 []).
  reflexivity.
Defined.

(** ** Where the rectangles lie *)

Section InsideTheFrame.
Import Renderer Layout.

(** [round] stays within one half of its argument. *)
Lemma round_half_even_near (x : Q) :
  (inject_Z (round_half_even x) - (1 # 2) <= x)%Q
  /\ (x <= inject_Z (round_half_even x) + (1 # 2))%Q.
Proof.
  unfold round_half_even.
  pose proof (Qfloor_le x) as Hlo. pose proof (Qlt_floor x) as Hhi.
  rewrite inject_Z_plus in Hhi. change (inject_Z 1) with 1%Q in Hhi.
  destruct (Qcompare (x - inject_Z (Qfloor x)) (1 # 2)) eqn:E.
  - apply Qeq_alt in E.
    destruct (Z.even (Qfloor x));
      rewrite ?inject_Z_plus; change (inject_Z 1) with 1%Q; split; lra.
  - apply Qlt_alt in E. split; lra.
  - apply Qgt_alt in E.
    rewrite inject_Z_plus. change (inject_Z 1) with 1%Q. split; lra.
Qed.

Lemma round_half (a : Z) :
  (a - 1 <= 2 * round_half_even (inject_Z a / 2) <= a + 1)%Z.
Proof.
  destruct (round_half_even_near (inject_Z a / 2)) as [Hlo Hhi].
  set (r := round_half_even (inject_Z a / 2)) in *.
  unfold Qdiv in Hlo, Hhi. change (/ 2)%Q with (1 # 2)%Q in Hlo, Hhi.
  split.
  - rewrite Zle_Qle. unfold Z.sub.
    rewrite inject_Z_plus, inject_Z_opp, inject_Z_mult.
    change (inject_Z 2) with 2%Q. change (inject_Z 1) with 1%Q. lra.
  - rewrite Zle_Qle.
    rewrite inject_Z_plus, inject_Z_mult.
    change (inject_Z 2) with 2%Q. change (inject_Z 1) with 1%Q. lra.
Qed.

(** The corners of a rectangle of even width and height that lies at
    non-negative coordinates. *)
Lemma rect_coords_centered (x y a b : Z) :
  (0 <= a <= x)%Z -> (0 <= b <= y)%Z ->
  rect_coords (x, y) (2 * a) (2 * b)
  = ((x - a, y - b)%Z, (x + a, y + b)%Z).
Proof.
  intros Ha Hb. unfold rect_coords. cbn [fst snd].
  rewrite (int_half (2 * (x - a))), (int_half (2 * (y - b))),
    (int_half (2 * (x + a))), (int_half (2 * (y + b)));
    try lia;
    try (unfold Z.sub;
         rewrite ?inject_Z_mult, ?inject_Z_plus, ?inject_Z_opp;
         change (inject_Z 2) with 2%Q; field).
  rewrite !(Z.mul_comm 2), !Z.div_mul by lia. reflexivity.
Qed.

Lemma rect_at_inside (w h x y c : Z) :
  (10 <= x)%Z -> (x + 10 < w)%Z -> (3 <= y)%Z -> (y + 3 < h)%Z ->
  inside w h (rect_at (x, y) 20 6 c).
Proof.
  intros Hx1 Hx2 Hy1 Hy2. unfold inside, rect_at.
  change 20%Z with (2 * 10)%Z. change 6%Z with (2 * 3)%Z.
  rewrite rect_coords_centered by lia. cbn [pt1 pt2 fst snd]. lia.
Qed.

Lemma symmetric_column_inside (w h x y m : Z) :
  (m <= 10)%Z ->
  (10 <= x)%Z -> (x + 10 < w)%Z -> (113 <= y)%Z -> (y + 113 < h)%Z ->
  Forall (inside w h) (symmetric_column (x, y) m 20 6).
Proof.
  intros Hm Hx1 Hx2 Hy1 Hy2. unfold symmetric_column. constructor.
  - apply rect_at_inside; lia.
  - apply Forall_app. split; apply Forall_map, Forall_forall;
      intros j Hj; apply range_in in Hj;
      unfold below, above; cbn [fst snd]; apply rect_at_inside;
      unfold vspace; lia.
Qed.

Lemma column_inside (w h : Z) (img : image) (x y count : Z) :
  (count <= 22)%Z ->
  (10 <= x)%Z -> (x + 10 < w)%Z -> (113 <= y)%Z -> (y + 113 < h)%Z ->
  Forall (inside w h) (drawn img) ->
  Forall (inside w h) (drawn (draw_column img (x, y) count 20 6)).
Proof.
  intros Hc Hx1 Hx2 Hy1 Hy2 Himg.
  destruct (Z_le_gt_dec count 0) as [H0 | H1].
  - now rewrite draw_column_nothing.
  - rewrite column_drawn by lia. apply Forall_app. split; [ exact Himg | ].
    apply symmetric_column_inside; try lia.
    Z.div_mod_to_equations; lia.
Qed.

(** X9.  On a background of at least 183 by 529 pixels, every rectangle of
    the frame that [process_video] draws for a level of at most 22 lies
    within the image: the columns are placed around the point
    [(round(w/2), round(h/2) + 150)], reach 90 pixels to either side of it
    and 113 pixels above and below it. *)
Theorem X9_rectangles_inside_the_frame (w h n : Z) :
  (183 <= w)%Z -> (529 <= h)%Z -> (n <= 22)%Z ->
  Forall (inside w h)
         (drawn (draw_rectangles
                   (mkImage w h [])
                   (round_half_even (inject_Z w / 2),
                    (round_half_even (inject_Z h / 2) + 150)%Z)
                   n 20 6)).
Proof.
  intros Hw Hh Hn.
  pose proof (round_half w) as Hx. pose proof (round_half h) as Hy.
  set (x := round_half_even (inject_Z w / 2)) in *.
  set (y := round_half_even (inject_Z h / 2)) in *.
  unfold draw_rectangles, index. cbn [fold_left].
  unfold draw_rectangles_body.
  cbn [Z.eqb is_in existsb orb Pos.eqb fst snd].
  unfold hspace.
  repeat (apply column_inside; [ lia | lia | lia | lia | lia | ]).
  constructor.
Qed.

Lemma X9_rectangles_inside_the_frame_witness :
  Forall (inside 1920 1080)
         (drawn (draw_rectangles
                   (mkImage 1920 1080 [])
                   (round_half_even (inject_Z 1920 / 2),
                    (round_half_even (inject_Z 1080 / 2) + 150)%Z)
                   21 20 6)).
Proof.
  apply (X9_rectangles_inside_the_frame 1920 1080 21); lia.
Defined.

End InsideTheFrame.

(** ** The quantizer on the energies of the analyzer *)

Section QuantizerOnReals.
Import Quantizer QuantizerRule.
Local Open Scope R_scope.

(** The walk stops at the latest at a threshold [t] with [2r < 3t]. *)
Lemma rule_walk_stops_R (r : R) :
  0 <= r ->
  forall (k : nat) (ahead : list Q) (t : Q) (counter : nat),
    positive ahead ->
    nth_error ahead k = Some t ->
    2 * r < 3 * Q2R t ->
    exists c,
      rule_walk (Num r) ahead counter = ok c /\ (c <= counter + k + 1)%nat.
Proof.
  intros Hr. induction k as [| k IH]; intros ahead t counter Hpos Hn Hc;
    destruct ahead as [| t0 rest]; simpl in Hn; try discriminate;
    inversion Hpos as [| ? ? Ht0 Hrest]; subst.
  - inversion Hn; subst t0.
    destruct (rule_walk_head_R r t rest counter Ht0 Hr)
      as [[Ha Wa] | [[Ha Wa] | [Ha Wa]]].
    + exists counter. split; [ exact Wa | lia ].
    + exists (S counter). split; [ exact Wa | lia ].
    + Lra.lra.
  - destruct (rule_walk_head_R r t0 rest counter Ht0 Hr)
      as [[Ha Wa] | [[Ha Wa] | [Ha Wa]]].
    + exists counter. split; [ exact Wa | lia ].
    + exists (S counter). split; [ exact Wa | lia ].
    + destruct (IH rest t (S counter) Hrest Hn Hc) as (c & Hw & Hb).
      exists c. split; [ now rewrite Wa | lia ].
Qed.

Lemma Q2R_7 : Q2R (7 # 1) = 7.
Proof. unfold Q2R. simpl. Lra.lra. Qed.

(** On a real energy of at most 10 the walk ends with a counter of at most
    9 at 10 frames per second and of at most 10 at 15 frames per second. *)
Lemma rule_walk_in_range_R (FPS : Z) (thresholds : list Q) (r : R) :
  energy_thresholds FPS = ok thresholds ->
  0 <= r -> r <= 10 ->
  exists c,
    rule_walk (Num r) thresholds 0 = ok c
    /\ (c <= 10)%nat /\ (FPS = 10%Z -> (c <= 9)%nat).
Proof.
  intros Hth Hr0 Hr10.
  pose proof (energy_thresholds_positive _ _ Hth) as Hpos.
  unfold energy_thresholds in Hth.
  destruct (FPS =? 10)%Z eqn:E10.
  - inversion Hth; subst thresholds; clear Hth.
    destruct (rule_walk_stops_R r Hr0 8 _ (7 # 1) 0%nat Hpos eq_refl)
      as (c & Hw & Hb); [ rewrite Q2R_7; Lra.lra | ].
    exists c. repeat split; [ exact Hw | lia | intros _; lia ].
  - destruct (FPS =? 15)%Z; [ | discriminate ].
    inversion Hth; subst thresholds; clear Hth.
    destruct (rule_walk_stops_R r Hr0 9 _ (7 # 1) 0%nat Hpos eq_refl)
      as (c & Hw & Hb); [ rewrite Q2R_7; Lra.lra | ].
    exists c. repeat split; [ exact Hw | lia | ].
    intros ->. discriminate E10.
Qed.

Ltac walk_step_R Hr :=
  match goal with
  | |- context [rule_walk (Num ?r) (?t :: ?rest) ?c] =>
      let H := fresh "H" in
      let W := fresh "W" in
      destruct (rule_walk_head_R r t rest c eq_refl Hr)
        as [[H W] | [[H W] | [H W]]];
      rewrite W; clear W;
      unfold Q2R in H; simpl in H
  end.

(** The energy 10, which the loudest window has, ends the walk at the
    counter 9 at 10 frames per second and 10 at 15 frames per second. *)
Lemma rule_walk_loudest (FPS : Z) (thresholds : list Q) :
  energy_thresholds FPS = ok thresholds ->
  rule_walk (Num 10) thresholds 0
  = ok (if (FPS =? 10)%Z then 9%nat else 10%nat).
Proof.
  intros Hth. assert (Hr : 0 <= 10) by Lra.lra.
  unfold energy_thresholds in Hth.
  destruct (FPS =? 10)%Z.
  - inversion Hth; subst thresholds; clear Hth.
    repeat (walk_step_R Hr;
            [ try (exfalso; Lra.lra); try reflexivity
            | try (exfalso; Lra.lra); try reflexivity | ]).
    exfalso; Lra.lra.
  - destruct (FPS =? 15)%Z; [ | discriminate ].
    inversion Hth; subst thresholds; clear Hth.
    repeat (walk_step_R Hr;
            [ try (exfalso; Lra.lra); try reflexivity
            | try (exfalso; Lra.lra); try reflexivity | ]).
    exfalso; Lra.lra.
Qed.

End QuantizerOnReals.

Section AnalyzerThenQuantizer.
Import Quantizer QuantizerRule Analyzer.
Local Open Scope R_scope.

Lemma chunk_level_R (FPS : Z) (thresholds : list Q) (r : R) :
  energy_thresholds FPS = ok thresholds ->
  0 <= r <= 10 ->
  exists l,
    chunk_level thresholds (Num r) = Some (ok l)
    /\ zero_or_odd l /\ (0 <= l <= top_level FPS)%Z
    /\ (r = 10 -> l = top_level FPS).
Proof.
  intros Hth [Hr0 Hr10].
  destruct (rule_walk_in_range_R FPS thresholds r Hth Hr0 Hr10)
    as (c & Hw & Hc & H9).
  exists (rule_level c).
  assert (Hl : chunk_level thresholds (Num r) = Some (ok (rule_level c))).
  { rewrite chunk_level_rule
      by (rewrite (energy_thresholds_length _ _ Hth); lia).
    now rewrite Hw. }
  split; [ exact Hl | ].
  destruct (rule_level_shape c Hc) as [Hshape Hb].
  split; [ exact Hshape | ]. split.
  - unfold top_level. destruct (Z.eqb_spec FPS 10) as [E | _]; [ | lia ].
    specialize (H9 E). unfold rule_level. destruct c; lia.
  - intros ->. rewrite (rule_walk_loudest FPS thresholds Hth) in Hw.
    inversion Hw; subst c. unfold top_level.
    destruct (FPS =? 10)%Z; reflexivity.
Qed.

Lemma levels_of_R (FPS : Z) (thresholds : list Q) (values : list R) :
  energy_thresholds FPS = ok thresholds ->
  Forall (fun v => 0 <= v <= 10) values ->
  exists levels,
    levels_of thresholds (map Num values) = Some (ok levels)
    /\ List.length levels = List.length values
    /\ Forall (fun l => zero_or_odd l /\ (0 <= l <= top_level FPS)%Z) levels
    /\ (In 10 values -> In (top_level FPS) levels).
Proof.
  intros Hth Hall. induction Hall as [| v values Hv Hall IH].
  - exists []. repeat split; [ constructor | intros [] ].
  - destruct IH as (ls & Hls & Hlen & Hshape & Htop).
    destruct (chunk_level_R FPS thresholds v Hth Hv) as (l & Hl & Hs & Hb & Hv10).
    exists (l :: ls). split; [ simpl; now rewrite Hl, Hls | ].
    split; [ simpl; now rewrite Hlen | ].
    split; [ constructor; [ split; assumption | exact Hshape ] | ].
    intros [E | Hin]; [ left; now apply Hv10 | right; now apply Htop ].
Qed.

(** What the analyzer returns on a recording that is not all-silent. *)
Lemma analyzer_values `{Collaborators} (record : AudioSegment) (FPS : Z) :
  FPS <> 0%Z ->
  windows_nonempty (make_chunks record (1000 / inject_Z FPS)%Q) ->
  not_all_silent (make_chunks record (1000 / inject_Z FPS)%Q) ->
  exists values : list R,
    calculate_energy_level_of_chunks record FPS = ok (map Num values)
    /\ List.length values
       = List.length (make_chunks record (1000 / inject_Z FPS)%Q)
    /\ Forall (fun v => 0 <= v <= 10) values
    /\ In 10 values.
Proof.
  intros Hfps Hne Hns.
  set (chunks := make_chunks record (1000 / inject_Z FPS)%Q) in *.
  assert (Hmean : map mean_energy chunks = map Num (map raw_energy chunks)).
  { rewrite map_map. apply map_ext_in. intros chunk Hin.
    unfold windows_nonempty in Hne. rewrite Forall_forall in Hne.
    apply mean_energy_nonempty. now apply Hne. }
  assert (Hnn : Forall (fun r => 0 <= r) (map raw_energy chunks)).
  { apply Forall_map. unfold windows_nonempty in Hne.
    eapply Forall_impl; [ | exact Hne ].
    intros chunk Hc. now apply raw_energy_nonneg. }
  assert (Hex : Exists (fun r => 0 < r) (map raw_energy chunks)).
  { apply Exists_map. unfold not_all_silent in Hns.
    eapply Exists_impl; [ | exact Hns ].
    intros chunk Hc. now apply raw_energy_pos. }
  destruct (equalize_finite _ Hnn Hex) as (m & Hin & Hm & Hall & Heq).
  exists (map (fun r => sqrt (r / m) * 10) (map raw_energy chunks)).
  split; [ | split; [ | split ] ].
  - unfold calculate_energy_level_of_chunks.
    destruct (FPS =? 0)%Z eqn:E; [ apply Z.eqb_eq in E; congruence | ].
    fold chunks. rewrite Hmean, Heq. f_equal. now rewrite !map_map.
  - now rewrite !length_map.
  - apply Forall_map. rewrite Forall_forall in Hnn, Hall.
    apply Forall_forall. intros r Hr.
    apply (equalize_entry r m (Hnn r Hr) (Hall r Hr) Hm).
  - apply in_map_iff. exists m. split; [ | exact Hin ].
    replace (m / m) with 1 by (field; Lra.lra).
    rewrite sqrt_1. Lra.lra.
Qed.

(** X10.  For a supported frame rate and a recording that is not
    all-silent, the quantizer accepts what the analyzer returns: it gives
    one level per window, every level is 0 or odd and at most the top level
    of the frame rate, and the top level occurs (for the loudest window).
    The top level is 19 at 10 frames per second, where the level 21 is
    never reached, and 21 at 15 frames per second. *)
Theorem X10_levels_of_a_recording `{Collaborators}
        (record : AudioSegment) (FPS : Z) :
  FPS = 10%Z \/ FPS = 15%Z ->
  windows_nonempty (make_chunks record (1000 / inject_Z FPS)%Q) ->
  not_all_silent (make_chunks record (1000 / inject_Z FPS)%Q) ->
  exists energy_of_chunks levels,
    calculate_energy_level_of_chunks record FPS = ok energy_of_chunks
    /\ get_number_of_rectangles energy_of_chunks FPS = Some (ok levels)
    /\ List.length levels
       = List.length (make_chunks record (1000 / inject_Z FPS)%Q)
    /\ Forall (fun l => zero_or_odd l /\ (0 <= l <= top_level FPS)%Z) levels
    /\ In (top_level FPS) levels.
Proof.
  intros Hfps Hne Hns.
  assert (H0 : FPS <> 0%Z) by (destruct Hfps; subst; discriminate).
  destruct (analyzer_values record FPS H0 Hne Hns)
    as (values & Hcalc & Hlen & Hrange & Hten).
  destruct (energy_thresholds_supported FPS Hfps) as (thresholds & Hth).
  destruct (levels_of_R FPS thresholds values Hth Hrange)
    as (levels & Hls & Hlen' & Hshape & Htop).
  exists (map Num values), levels.
  split; [ exact Hcalc | ].
  split; [ unfold get_number_of_rectangles; now rewrite Hth | ].
  split; [ congruence | ].
  split; [ exact Hshape | now apply Htop ].
Qed.

End AnalyzerThenQuantizer.

Lemma X10_levels_of_a_recording_witness :
  exists energy_of_chunks levels,
    @Analyzer.calculate_energy_level_of_chunks
       Sample.sample_world Sample.sample_recording 10
    = ok energy_of_chunks
    /\ Quantizer.get_number_of_rectangles energy_of_chunks 10
       = Some (ok levels)
    /\ List.length levels
       = List.length (@make_chunks Sample.sample_world Sample.sample_recording
                                   (1000 / inject_Z 10)%Q)
    /\ Forall (fun l => Quantizer.zero_or_odd l
                        /\ (0 <= l <= top_level 10)%Z) levels
    /\ In (top_level 10) levels.
Proof.
  apply (@X10_levels_of_a_recording
           Sample.sample_world Sample.sample_recording 10).
  - left. reflexivity.
  - rewrite sample_chunks. repeat constructor; discriminate.
  - rewrite sample_chunks. apply Exists_cons_hd. apply Exists_cons_hd.
    intros E. discriminate E.
Defined.

(** ** The whole run *)

Section WholeRun.
Context `{Collaborators}.
Import Main.



(** X12.  When the audio file is missing the run ends with
    [FileNotFoundError] right after the attempt to decode it, whatever the
    frame rate is, supported or not: nothing is analyzed, drawn or muxed. *)
Theorem X12_missing_audio_file (FPS : Z) :
  from_file AUDIO_FILE_NAME = None ->
  run FPS = Some ([AudioDecoding AUDIO_FILE_NAME], raise FileNotFoundError).
Proof.
  intros Hf. unfold run, main, Py.bind, Py.emit, Py.lift.
  unfold Preprocessor.load_and_process_audio. rewrite Hf. reflexivity.
Qed.

End WholeRun.


Lemma X12_missing_audio_file_witness :
  @Main.run (Sample.collaborators None (1 # 50) (Some (1920, 1080)%Z)) 12
  = Some ([AudioDecoding Main.AUDIO_FILE_NAME], raise FileNotFoundError).
Proof.
  apply (@X12_missing_audio_file
           (Sample.collaborators None (1 # 50) (Some (1920, 1080)%Z)) 12).
  reflexivity.
Defined.

(** ** The analyzer on degenerate windows *)

Section AnalyzerEdges.
Import Analyzer.
Local Open Scope R_scope.

Lemma fold_maximum_nan (xs : list float64) :
  fold_left Numpy.maximum xs NaN = NaN.
Proof.
  induction xs as [| x xs IH]; simpl; [ reflexivity | exact IH ].
Qed.

Lemma fold_maximum_with_nan (xs : list float64) :
  In NaN xs -> forall x0, fold_left Numpy.maximum xs x0 = NaN.
Proof.
  induction xs as [| x xs IH]; intros Hin x0; [ destruct Hin | ].
  destruct Hin as [-> | Hin]; simpl.
  - replace (Numpy.maximum x0 NaN) with NaN by (destruct x0; reflexivity).
    apply fold_maximum_nan.
  - now apply IH.
Qed.

(** X14.  Degenerate windows.  Without any window the analyzer raises
    [ValueError] (an empty array has no maximum).  With a window that holds
    no sample, that window's mean is [nan], the maximum is [nan], and the
    analyzer returns [nan] for every window, also for those with samples. *)
Theorem X14_degenerate_windows `{Collaborators}
        (record : AudioSegment) (FPS : Z) :
  FPS <> 0%Z ->
  (make_chunks record (1000 / inject_Z FPS)%Q = [] ->
   calculate_energy_level_of_chunks record FPS = raise ValueError)
  /\ (In [] (make_chunks record (1000 / inject_Z FPS)%Q) ->
      calculate_energy_level_of_chunks record FPS
      = ok (map (fun _ => NaN) (make_chunks record (1000 / inject_Z FPS)%Q))).
Proof.
  intros Hfps. unfold calculate_energy_level_of_chunks.
  destruct (FPS =? 0)%Z eqn:E; [ apply Z.eqb_eq in E; congruence | ].
  split.
  - intros ->. reflexivity.
  - intros Hin.
    set (chunks := make_chunks record (1000 / inject_Z FPS)%Q) in *.
    assert (Hnan : In NaN (map mean_energy chunks)).
    { apply in_map_iff. exists []. split; [ reflexivity | exact Hin ]. }
    assert (Hmax : Numpy.max (map mean_energy chunks) = ok NaN).
    { destruct (map mean_energy chunks) as [| x0 xs]; [ destruct Hnan | ].
      simpl. f_equal. destruct Hnan as [-> | Hnan].
      - apply fold_maximum_nan.
      - now apply fold_maximum_with_nan. }
    unfold equalize. rewrite Hmax. unfold ok, rbind. apply f_equal.
    rewrite map_map. apply map_ext. intros chunk.
    destruct (mean_energy chunk); reflexivity.
Qed.

End AnalyzerEdges.

Lemma X14_degenerate_windows_witness :
  (@make_chunks Sample.ragged_world Sample.sample_recording
                (1000 / inject_Z 10)%Q = [] ->
   @Analyzer.calculate_energy_level_of_chunks
      Sample.ragged_world Sample.sample_recording 10
   = raise ValueError)
  /\ (In [] (@make_chunks Sample.ragged_world Sample.sample_recording
                          (1000 / inject_Z 10)%Q) ->
      @Analyzer.calculate_energy_level_of_chunks
         Sample.ragged_world Sample.sample_recording 10
      = ok (map (fun _ => NaN)
                (@make_chunks Sample.ragged_world Sample.sample_recording
                              (1000 / inject_Z 10)%Q))).
Proof.
  apply (@X14_degenerate_windows
           Sample.ragged_world Sample.sample_recording 10).
  discriminate.
Defined.
